(** * optool: prescribing look-ups and per-month rankings

    A shallow embedding of [src/optool.py] and the properties of its
    resolver, catalogue look-up, collectors, ranking engine and
    command-line program.

    Conventions of the embedding.
    - A Python [str] is a [string], one [ascii] per character; [s[:n]] is
      [String.substring 0 n s], [s.startswith(p)] is [String.prefix p s],
      [len] is [String.length], and [<] on [str] is the lexicographic
      order of [String.compare].
    - A Python [dict] is a [gmap], a [set] a [gset].
    - The objects of a JSON response are records with one optional field
      per key that the program reads, typed after the response schemas
      (identifiers, names and dates are strings, counts are integers);
      [None] is a missing key, so [item.get(k)] is the projection and
      [item.get(k, d)] is [default d] of it.
    - [requests.get], [raise_for_status] and [response.json()] together are
      one call of the remote service: it answers with a list of objects or
      fails with a [RequestException].
    - [items / list_size] on two [int]s is [truediv]: the double nearest
      to the quotient, as the binary64 division of [SpecFloat] rounds it,
      or [OverflowError]. The weighted ranking with this division is
      [find_top_prescriber_by_month_weighted_float]; it is what [main]
      calls. [find_top_prescriber_by_month_weighted] is the same loop with
      the exact quotient in [Q], for the statements about which dates are
      ranked, where the value of a rate plays no part. The lemma on [max]
      that both rely on holds for every key order in which [>] is a strict
      weak order.
    - Python iterates a [set] in an order of its own. The loop over the
      months, [months_loop], takes the order as an argument;
      [get_icb_list_sizes] runs it in the order of [elements], and the
      mapping it returns is the same in every order for dates that hold a
      month. *)

From Stdlib Require Import QArith SpecFloat.
From stdpp Require Import gmap strings list fin_maps sorting pretty.

Local Open Scope string_scope.
Local Open Scope list_scope.
Local Open Scope Z_scope.

(** ** Data model *)

(** One element of [spending_by_date[date]]: the dictionary built by
    [get_spending_data]. *)
Record entry := Entry {
  org_id : option string;
  org_name : option string;
  items : Z;
  quantity : Z;
  actual_cost : Q
}.

(** One element of [icb_rates] in the weighted ranking. *)
Record icb_rate := IcbRate {
  rate_org_name : option string;
  rate : Q
}.

(** One object of a JSON response. *)
Record item := Item {
  get_id : option string;
  get_name : option string;
  get_date : option string;
  get_row_id : option string;
  get_row_name : option string;
  get_items : option Z;
  get_quantity : option Z;
  get_actual_cost : option Q;
  get_total_list_size : option Z
}.

(** The exception classes the program raises or catches, each with the
    text that [str(e)] gives. *)
Inductive exn :=
| ValueError (msg : string)
| RequestException (msg : string)
| Exception (msg : string)
| OverflowError (msg : string)
| ZeroDivisionError (msg : string).

(** What the program does to the outside world: the URLs it has requested
    and the lines it has printed on each stream, oldest first. *)
Record io := IO {
  requested : list string;
  stdout : list string;
  stderr : list string
}.

(** A computation that may raise and that acts on the outside world. *)
Definition M (A : Type) : Type := io → (exn + A) * io.

Definition ret {A} (a : A) : M A := λ w, (inr a, w).

Definition raise {A} (e : exn) : M A := λ w, (inl e, w).

Definition bind {A B} (m : M A) (k : A → M B) : M B := λ w,
  match m w with
  | (inr a, w') => k a w'
  | (inl e, w') => (inl e, w')
  end.

(** [try: body except ...: handler]. *)
Definition try_except {A} (body : M A) (handler : exn → M A) : M A := λ w,
  match body w with
  | (inr a, w') => (inr a, w')
  | (inl e, w') => handler e w'
  end.

Notation "x <- m ;; k" := (bind m (λ x, k))
  (at level 100, m at next level, right associativity).

(** [print(line, file=sys.stderr)]. *)
Definition print_stderr (line : string) : M unit := λ w,
  (inr tt, IO (requested w) (stdout w) (stderr w ++ [line])).

(** ** Builtins *)

(** [max(first :: rest, key=key)]: the running maximum is replaced only by
    an element whose key is strictly greater. *)
Fixpoint max_from {A K : Type} (gt : K → K → bool) (key : A → K)
    (best : A) (rest : list A) : A :=
  match rest with
  | [] => best
  | x :: rest' => max_from gt key (if gt (key x) (key best) then x else best) rest'
  end.

(** [sorted] on a list of strings. *)
Definition sorted (l : list string) : list string := merge_sort String.le l.

(** [d.keys()]. *)
Definition keys {V : Type} (d : gmap string V) : list string :=
  elements (dom d : gset string).

(** [a > b] on two rates, each the rational number it stands for. *)
Definition Qgtb (a b : Q) : bool := negb (Qle_bool a b).

(** A Python [int] as the operand of a float division: an integer with
    the exponent 0, of any size. *)
Definition float_of_int (a : Z) : spec_float :=
  match a with
  | Z0 => S754_zero false
  | Zpos m => S754_finite false m 0
  | Zneg m => S754_finite true m 0
  end.

(** The number that a finite double stands for; both zeros stand for 0. *)
Definition float_value (x : spec_float) : Q :=
  match x with
  | S754_finite s m (Zneg k) => cond_Zopp s (Zpos m) # (2 ^ k)%positive
  | S754_finite s m e => cond_Zopp s (Zpos m) * 2 ^ e # 1
  | _ => 0%Q
  end.

(** [a / b] on two [int]s: the double nearest to the quotient, ties to
    even, as [SFdiv] rounds it for binary64; a quotient that rounds past
    the largest double raises [OverflowError]. A double is kept as the
    number it stands for, which is what [>] on doubles compares. *)
Definition truediv (a b : Z) : exn + Q :=
  if b =? 0 then inl (ZeroDivisionError "division by zero")
  else
    match SFdiv 53 1024 (float_of_int a) (float_of_int b) with
    | S754_zero _ => inr 0%Q
    | S754_finite s m e => inr (float_value (S754_finite s m e))
    | _ => inl (OverflowError "integer division result too large for a float")
    end.

(** [a < b] on strings. *)
Definition str_lt (a b : string) : Prop := String.ltb a b.

(** ** Ranking engine *)

Definition find_top_prescriber_by_month (spending_data : gmap string (list entry))
    : list (string * option string) :=
  foldl (λ results date,
      match spending_data !! date with
      | Some [] => results                                   (* continue *)
      | Some (first :: rest) =>
          let top_icb := max_from Z.gtb items first rest in
          results ++ [(date, org_name top_icb)]
      | None => results                                      (* not reached *)
      end)
    [] (sorted (keys spending_data)).

(** [list_sizes.get(date, {}).get(org_id, 0)]. *)
Definition list_size_at (list_sizes : gmap string (gmap (option string) Z))
    (date : string) (org : option string) : Z :=
  default 0 (default ∅ (list_sizes !! date) !! org).

(** The inner loop of the weighted ranking: the rates of one date, each
    kept as the exact quotient. *)
Definition icb_rates_of (list_sizes : gmap string (gmap (option string) Z))
    (date : string) (icb_data : list entry) : list icb_rate :=
  foldl (λ icb_rates icb,
      let list_size := list_size_at list_sizes date (org_id icb) in
      if 0 <? list_size
      then icb_rates ++ [IcbRate (org_name icb) (inject_Z (items icb) / inject_Z list_size)%Q]
      else icb_rates)
    [] icb_data.

Definition find_top_prescriber_by_month_weighted
    (spending_data : gmap string (list entry))
    (list_sizes : gmap string (gmap (option string) Z))
    : list (string * option string) :=
  foldl (λ results date,
      match spending_data !! date with
      | Some [] => results                                   (* continue *)
      | Some icb_data =>
          match icb_rates_of list_sizes date icb_data with
          | [] => results
          | first :: rest =>
              let top_icb := max_from Qgtb rate first rest in
              results ++ [(date, rate_org_name top_icb)]
          end
      | None => results                                      (* not reached *)
      end)
    [] (sorted (keys spending_data)).

(** *** The weighted ranking with the division of Python

    The two definitions above keep [items / list_size] as the exact
    quotient. The definitions below are the same loops with [truediv]: a
    rate is the double that Python computes, two different quotients may
    give one rate, and a quotient too large for a double ends the function
    with [OverflowError]. *)

(** The inner loop of the weighted ranking, from the rates appended so
    far. *)
Fixpoint icb_rates_loop (list_sizes : gmap string (gmap (option string) Z))
    (date : string) (icb_rates : list icb_rate) (icb_data : list entry)
    : exn + list icb_rate :=
  match icb_data with
  | [] => inr icb_rates
  | icb :: icb_data' =>
      let list_size := list_size_at list_sizes date (org_id icb) in
      if 0 <? list_size
      then
        match truediv (items icb) list_size with
        | inl e => inl e
        | inr rate =>
            icb_rates_loop list_sizes date
              (icb_rates ++ [IcbRate (org_name icb) rate]) icb_data'
        end
      else icb_rates_loop list_sizes date icb_rates icb_data'
  end.

(** The loop over the sorted dates, from the results appended so far. *)
Fixpoint weighted_loop (spending_data : gmap string (list entry))
    (list_sizes : gmap string (gmap (option string) Z))
    (results : list (string * option string)) (dates : list string)
    : exn + list (string * option string) :=
  match dates with
  | [] => inr results
  | date :: dates' =>
      match spending_data !! date with
      | Some [] => weighted_loop spending_data list_sizes results dates'   (* continue *)
      | Some icb_data =>
          match icb_rates_loop list_sizes date [] icb_data with
          | inl e => inl e
          | inr [] => weighted_loop spending_data list_sizes results dates'
          | inr (first :: rest) =>
              let top_icb := max_from Qgtb rate first rest in
              weighted_loop spending_data list_sizes
                (results ++ [(date, rate_org_name top_icb)]) dates'
          end
      | None => weighted_loop spending_data list_sizes results dates'   (* not reached *)
      end
  end.

Definition find_top_prescriber_by_month_weighted_float
    (spending_data : gmap string (list entry))
    (list_sizes : gmap string (gmap (option string) Z))
    : exn + list (string * option string) :=
  weighted_loop spending_data list_sizes [] (sorted (keys spending_data)).

(** ** Calls of the remote service *)

(** The remote service: the answer to a GET of a URL, either the message of
    the [RequestException] raised or the decoded list of objects. *)
Abbreviation remote := (string → string + list item).

Section Remote.

Variable http_get : remote.

(** [response = requests.get(url); response.raise_for_status();
    response.json()]. *)
Definition requests_get_json (url : string) : M (list item) := λ w,
  (match http_get url with
   | inl e => inl (RequestException e)
   | inr data => inr data
   end,
   IO (requested w ++ [url]) (stdout w) (stderr w)).

(** *** Code resolver *)

Definition check_code_url (code : string) : string :=
  "https://openprescribing.net/api/1.0/bnf_code/?format=json&exact=true&param=" +:+ code.

(** The loop of [check_code_exists] over the response. *)
Fixpoint has_exact_id (code : string) (data : list item) : bool :=
  match data with
  | [] => false
  | item :: data' =>
      if bool_decide (get_id item = Some code) then true else has_exact_id code data'
  end.

Definition check_code_exists (code : string) : M bool :=
  try_except
    (data <- requests_get_json (check_code_url code) ;;
     ret (has_exact_id code data))
    (λ _, ret false).

(** The loop [for length in [9, 7]] of [extract_chemical_code], followed by
    the default. *)
Fixpoint try_lengths (bnf_code : string) (lengths : list nat) : M string :=
  match lengths with
  | [] => ret (String.substring 0 9 bnf_code)
  | length :: lengths' =>
      let chemical_code := String.substring 0 length bnf_code in
      found <- check_code_exists chemical_code ;;
      if found : bool then ret chemical_code else try_lengths bnf_code lengths'
  end.

Definition extract_chemical_code (bnf_code : string) : M string :=
  if negb (String.length bnf_code =? 15)%nat
  then raise (ValueError ("BNF code must be exactly 15 characters, got "
                          +:+ pretty (String.length bnf_code)))
  else try_lengths bnf_code [9; 7]%nat.

(** *** Catalogue look-up *)

Definition chemical_name_url (chemical_code : string) : string :=
  "https://openprescribing.net/api/1.0/bnf_code/?format=json&exact=true&q=" +:+ chemical_code.

(** The loop of [get_chemical_name] over the response, followed by the
    [raise] after it. *)
Fixpoint find_exact_name (chemical_code : string) (data : list item) : M string :=
  match data with
  | [] => raise (ValueError ("No exact match found for chemical code " +:+ chemical_code))
  | item :: data' =>
      if bool_decide (get_id item = Some chemical_code)
      then ret (default "Unknown chemical" (get_name item))
      else find_exact_name chemical_code data'
  end.

Definition get_chemical_name (chemical_code : string) : M string :=
  try_except
    (data <- requests_get_json (chemical_name_url chemical_code) ;;
     match data with
     | [] => raise (ValueError ("No data found for chemical code " +:+ chemical_code))
     | _ => find_exact_name chemical_code data
     end)
    (λ e,
       match e with
       | RequestException msg => raise (Exception ("Failed to fetch data from API: " +:+ msg))
       | ValueError msg => raise (Exception ("Failed to parse API response: " +:+ msg))
       | _ => raise e
       end).

(** *** Spending collector *)

Definition spending_url (chemical_code : string) : string :=
  "https://openprescribing.net/api/1.0/spending_by_org/?format=json&org_type=icb&code="
  +:+ chemical_code.

(** The dictionary appended for one response object. *)
Definition entry_of_item (item : item) : entry :=
  {| org_id := get_row_id item;
     org_name := get_row_name item;
     items := default 0 (get_items item);
     quantity := default 0 (get_quantity item);
     actual_cost := default 0%Q (get_actual_cost item) |}.

(** One round of the loop of [get_spending_data]; [if date:] holds for a
    string that is present and not empty. *)
Definition spending_step (spending_by_date : gmap string (list entry)) (item : item)
    : gmap string (list entry) :=
  match get_date item with
  | Some date =>
      if bool_decide (date ≠ "")
      then <[date := default [] (spending_by_date !! date) ++ [entry_of_item item]]>
             spending_by_date
      else spending_by_date
  | None => spending_by_date
  end.

Definition get_spending_data (chemical_code : string) : M (gmap string (list entry)) :=
  try_except
    (data <- requests_get_json (spending_url chemical_code) ;;
     ret (foldl spending_step ∅ data))
    (λ e,
       match e with
       | RequestException msg =>
           raise (Exception ("Failed to fetch spending data from API: " +:+ msg))
       | _ => raise e
       end).

(** *** Population collector *)

Definition org_details_url (year_month : string) : string :=
  "https://openprescribing.net/api/1.0/org_details/"
  +:+ "?format=json&org_type=icb&keys=total_list_size&date="
  +:+ year_month +:+ "-01".

(** The first loop of [get_icb_list_sizes]. *)
Definition unique_months (dates : list string) : gset string :=
  foldl (λ unique_months date, unique_months ∪ {[String.substring 0 7 date]}) ∅ dates.

(** [list_sizes[date][org_id] = size] on a [defaultdict(dict)]. *)
Definition set_list_size (date : string) (org : option string) (size : Z)
    (list_sizes : gmap string (gmap (option string) Z))
    : gmap string (gmap (option string) Z) :=
  <[date := <[org := size]> (default ∅ (list_sizes !! date))]> list_sizes.

(** The loop over the requested dates, for one object of a monthly
    response. *)
Definition store_dates (dates : list string) (year_month : string)
    (org : option string) (size : Z)
    (list_sizes : gmap string (gmap (option string) Z))
    : gmap string (gmap (option string) Z) :=
  foldl (λ list_sizes date,
      if String.prefix year_month date
      then set_list_size date org size list_sizes
      else list_sizes)
    list_sizes dates.

(** The loop over the objects of one monthly response. *)
Definition store_month (org_ids : gset (option string)) (dates : list string)
    (year_month : string) (data : list item)
    (list_sizes : gmap string (gmap (option string) Z))
    : gmap string (gmap (option string) Z) :=
  foldl (λ list_sizes item,
      let org := get_row_id item in
      if bool_decide (org ∈ org_ids)
      then store_dates dates year_month org (default 0 (get_total_list_size item)) list_sizes
      else list_sizes)
    list_sizes data.

(** One round of the loop over the months. *)
Definition month_step (org_ids : gset (option string)) (dates : list string)
    (list_sizes : gmap string (gmap (option string) Z)) (year_month : string)
    : M (gmap string (gmap (option string) Z)) :=
  try_except
    (data <- requests_get_json (org_details_url year_month) ;;
     ret (store_month org_ids dates year_month data list_sizes))
    (λ e,
       match e with
       | RequestException msg =>
           _ <- print_stderr ("Warning: Failed to fetch list sizes for " +:+ year_month
                              +:+ ": " +:+ msg) ;;
           ret list_sizes                                    (* continue *)
       | _ => raise e
       end).

(** The loop over the months, in the order [months]. *)
Fixpoint months_loop (org_ids : gset (option string)) (dates : list string)
    (list_sizes : gmap string (gmap (option string) Z)) (months : list string)
    : M (gmap string (gmap (option string) Z)) :=
  match months with
  | [] => ret list_sizes
  | year_month :: months' =>
      list_sizes' <- month_step org_ids dates list_sizes year_month ;;
      months_loop org_ids dates list_sizes' months'
  end.

(** A Python [set] is iterated in an order the language leaves open; the
    order taken here is that of [elements], and the theorems below use of
    it only that it lists every month once. *)
Definition get_icb_list_sizes (org_ids : gset (option string)) (dates : list string)
    : M (gmap string (gmap (option string) Z)) :=
  months_loop org_ids dates ∅ (elements (unique_months dates)).

End Remote.

(** The outside world before the program has done anything. *)
Definition io0 : io := IO [] [] [].

(** ** The command-line program *)

(** What ends a run of [main] early: an exception, or [sys.exit], whose
    [SystemExit] is not an [Exception] and so passes [except Exception]. *)
Inductive signal :=
| Raised (e : exn)
| SystemExit (status : Z).

(** A computation of [main]. *)
Definition P (A : Type) : Type := io → (signal + A) * io.

Definition ret_P {A} (a : A) : P A := λ w, (inr a, w).

Definition bind_P {A B} (m : P A) (k : A → P B) : P B := λ w,
  match m w with
  | (inr a, w') => k a w'
  | (inl s, w') => (inl s, w')
  end.

Notation "x <-- m ;; k" := (bind_P m (λ x, k))
  (at level 100, m at next level, right associativity).

(** A call of one of the functions above from [main]. *)
Definition call {A} (m : M A) : P A := λ w,
  match m w with
  | (inr a, w') => (inr a, w')
  | (inl e, w') => (inl (Raised e), w')
  end.

(** [print(line)]. *)
Definition print (line : string) : P unit := λ w,
  (inr tt, IO (requested w) (stdout w ++ [line]) (stderr w)).

(** An expression of [main] that gives a value or raises. *)
Definition eval {A} (r : exn + A) : P A := λ w,
  match r with
  | inr a => (inr a, w)
  | inl e => (inl (Raised e), w)
  end.

(** [sys.exit(status)]. *)
Definition sys_exit {A} (status : Z) : P A := λ w, (inl (SystemExit status), w).

(** [try: body except Exception as e: handler]; every class of [exn] is a
    subclass of [Exception]. *)
Definition try_except_Exception {A} (body : P A) (handler : exn → P A) : P A := λ w,
  match body w with
  | (inl (Raised e), w') => handler e w'
  | (r, w') => (r, w')
  end.

(** [str(e)]. *)
Definition str_of_exn (e : exn) : string :=
  match e with
  | ValueError msg | RequestException msg | Exception msg
  | OverflowError msg | ZeroDivisionError msg => msg
  end.

(** The text of an organization name inside an f-string; a missing name is
    Python's [None]. *)
Definition str_of_name (icb_name : option string) : string :=
  default "None" icb_name.

(** [d.values()]. *)
Definition values {V : Type} (d : gmap string V) : list V := (map_to_list d).*2.

(** The loops of [main] that fill [org_ids]. *)
Definition collect_org_ids (spending_data : gmap string (list entry))
    : gset (option string) :=
  foldl (λ org_ids date_data,
      foldl (λ org_ids item, org_ids ∪ {[org_id item]}) org_ids date_data)
    ∅ (values spending_data).

(** The last loop of [main]. *)
Fixpoint print_rows (top_prescribers : list (string * option string)) : P unit :=
  match top_prescribers with
  | [] => ret_P tt
  | (date, icb_name) :: top_prescribers' =>
      _ <-- print (date +:+ " " +:+ str_of_name icb_name) ;;
      print_rows top_prescribers'
  end.

Section Main.

Variable http_get : remote.

(** The body of the [try] of [main], for the parsed arguments. The dates
    passed to the population collector are listed in the order of [keys];
    the collector treats them as a set. *)
Definition main_body (bnf_code : string) (weighted : bool) : P unit :=
  chemical_code <-- call (extract_chemical_code http_get bnf_code) ;;
  chemical_name <-- call (get_chemical_name http_get chemical_code) ;;
  _ <-- print chemical_name ;;
  _ <-- print "" ;;
  spending_data <-- call (get_spending_data http_get chemical_code) ;;
  _ <-- (if (size spending_data =? 0)%nat
         then _ <-- print "No spending data found for this chemical." ;; sys_exit 0
         else ret_P tt) ;;
  top_prescribers <--
    (if weighted
     then
       let org_ids := collect_org_ids spending_data in
       let dates := keys spending_data in
       list_sizes <-- call (get_icb_list_sizes http_get org_ids dates) ;;
       eval (find_top_prescriber_by_month_weighted_float spending_data list_sizes)
     else ret_P (find_top_prescriber_by_month spending_data)) ;;
  print_rows top_prescribers.

(** [main] from its [try] on. Before it, [parser.parse_args()] gives the
    two arguments, or ends the process with status 2 on a command line it
    does not accept. *)
Definition main (bnf_code : string) (weighted : bool) : P unit :=
  try_except_Exception (main_body bnf_code weighted)
    (λ e,
       _ <-- call (print_stderr ("Error: " +:+ str_of_exn e)) ;;
       sys_exit 1).

(** The exit status of the process and what it has done: 0 when [main]
    returns, the argument of [sys.exit] otherwise, and 1 for an exception
    that nothing catches. *)
Definition run_main (bnf_code : string) (weighted : bool) (w : io) : Z * io :=
  match main bnf_code weighted w with
  | (inr _, w') => (0, w')
  | (inl (SystemExit status), w') => (status, w')
  | (inl (Raised _), w') => (1, w')
  end.

End Main.

(** ** Notions used in the statements *)

(** What one round of the unweighted loop appends for [date], if anything. *)
Definition top_unweighted (spending_data : gmap string (list entry)) (date : string)
    : option (string * option string) :=
  match spending_data !! date with
  | Some (first :: rest) => Some (date, org_name (max_from Z.gtb items first rest))
  | _ => None
  end.


(** The population on record for an organization on a date, if there is one. *)
Definition population (list_sizes : gmap string (gmap (option string) Z))
    (date : string) (org : option string) : option Z :=
  list_sizes !! date ≫= λ sizes, sizes !! org.

(** An entry has a usable rate when its organization has a population on
    record for the date and that population is strictly positive. *)
Definition usable (list_sizes : gmap string (gmap (option string) Z))
    (date : string) (e : entry) : Prop :=
  ∃ p, population list_sizes date (org_id e) = Some p ∧ 0 < p.

Global Instance usable_dec list_sizes date e : Decision (usable list_sizes date e).
Proof.
  unfold usable. destruct (population list_sizes date (org_id e)) as [p|].
  - destruct (decide (0 < p)); [left; by exists p|right; intros (? & [= <-] & ?); lia].
  - right. by intros (? & [=] & _).
Defined.


(** The catalogue answers the existence query for [code] with a list that
    holds an object whose identifier is exactly [code]. *)
Definition catalog_has (http_get : remote) (code : string) : Prop :=
  ∃ data item,
    http_get (check_code_url code) = inr data ∧ item ∈ data ∧ get_id item = Some code.

(** The population that a monthly response gives for an organization: that
    of the last object of the response with the organization's id, 0 when
    the object has no list size, and none when the organization is not
    among [org_ids] or not in the response. *)
Definition recorded_size (org_ids : gset (option string)) (data : list item)
    (org : option string) : option Z :=
  if decide (org ∈ org_ids)
  then (λ it, default 0 (get_total_list_size it))
         <$> last (filter (λ it, get_row_id it = org) data)
  else None.

(** The dictionary of one date after the objects of a monthly response
    have been stored into it; [None] is a date not yet in [list_sizes]. *)
Definition store_sizes (org_ids : gset (option string)) (data : list item)
    (sizes : option (gmap (option string) Z)) : option (gmap (option string) Z) :=
  foldl (λ sizes item,
      if bool_decide (get_row_id item ∈ org_ids)
      then Some (<[get_row_id item := default 0 (get_total_list_size item)]> (default ∅ sizes))
      else sizes)
    sizes data.

(** What the loop over the months returns. *)
Definition months_result (http_get : remote)
    (org_ids : gset (option string)) (dates : list string)
    (list_sizes : gmap string (gmap (option string) Z)) (months : list string)
    : gmap string (gmap (option string) Z) :=
  foldl (λ list_sizes year_month,
      match http_get (org_details_url year_month) with
      | inl _ => list_sizes
      | inr data => store_month org_ids dates year_month data list_sizes
      end)
    list_sizes months.

(** The warning that the loop over the months prints for a month, if any. *)
Definition month_warning (http_get : remote) (year_month : string)
    : option string :=
  match http_get (org_details_url year_month) with
  | inl e => Some ("Warning: Failed to fetch list sizes for " +:+ year_month +:+ ": " +:+ e)
  | inr _ => None
  end.

(** What the existence check answers for [code]. *)
Definition code_exists (http_get : remote) (code : string) : bool :=
  match http_get (check_code_url code) with
  | inl _ => false
  | inr data => has_exact_id code data
  end.

(** The code that the resolver returns for a code of 15 characters, and
    the URLs it requests on the way. *)
Definition resolved (http_get : remote) (bnf_code : string) : string * list string :=
  if code_exists http_get (String.substring 0 9 bnf_code)
  then (String.substring 0 9 bnf_code, [check_code_url (String.substring 0 9 bnf_code)])
  else
    (if code_exists http_get (String.substring 0 7 bnf_code)
     then String.substring 0 7 bnf_code
     else String.substring 0 9 bnf_code,
     [check_code_url (String.substring 0 9 bnf_code);
      check_code_url (String.substring 0 7 bnf_code)]).

(** What the catalogue look-up returns or raises for [code]. *)
Definition looked_up (http_get : remote) (code : string) : exn + string :=
  match http_get (chemical_name_url code) with
  | inl e => inl (Exception ("Failed to fetch data from API: " +:+ e))
  | inr [] =>
      inl (Exception ("Failed to parse API response: "
                      +:+ ("No data found for chemical code " +:+ code)))
  | inr data =>
      match list_find (λ it, get_id it = Some code) data with
      | Some (_, it) => inr (default "Unknown chemical" (get_name it))
      | None =>
          inl (Exception ("Failed to parse API response: "
                          +:+ ("No exact match found for chemical code " +:+ code)))
      end
  end.

(** What the spending collector returns or raises for [code]. *)
Definition collected (http_get : remote) (code : string) : exn + gmap string (list entry) :=
  match http_get (spending_url code) with
  | inl e => inl (Exception ("Failed to fetch spending data from API: " +:+ e))
  | inr data => inr (foldl spending_step ∅ data)
  end.

(** The line that [main] prints for one pair of the ranking. *)
Definition row_text (row : string * option string) : string :=
  row.1 +:+ " " +:+ str_of_name row.2.

(** The dictionary of a date, when there is one, is not empty and has only
    organizations of [org_ids]. *)
Definition sizes_within (org_ids : gset (option string))
    (sizes : option (gmap (option string) Z)) : Prop :=
  ∀ m, sizes = Some m → m ≠ ∅ ∧ ∀ org, is_Some (m !! org) → org ∈ org_ids.

(** A line is a warning of the population collector. *)
Definition is_warning (line : string) : Prop :=
  ∃ year_month e,
    line = "Warning: Failed to fetch list sizes for " +:+ year_month +:+ ": " +:+ e.

(** What [main] returns and does for a code of 15 characters, read off the
    answers of the remote service. *)
Definition main_result (http_get : remote) (bnf_code : string) (weighted : bool) (w : io)
    : (signal + unit) * io :=
  let code := (resolved http_get bnf_code).1 in
  let requested1 :=
    requested w ++ (resolved http_get bnf_code).2 ++ [chemical_name_url code] in
  match looked_up http_get code with
  | inl e =>
      (inl (SystemExit 1),
       IO requested1 (stdout w) (stderr w ++ ["Error: " +:+ str_of_exn e]))
  | inr name =>
      let requested2 := requested1 ++ [spending_url code] in
      let stdout2 := stdout w ++ [name; ""] in
      match collected http_get code with
      | inl e =>
          (inl (SystemExit 1),
           IO requested2 stdout2 (stderr w ++ ["Error: " +:+ str_of_exn e]))
      | inr sd =>
          if (size sd =? 0)%nat then
            (inl (SystemExit 0),
             IO requested2 (stdout2 ++ ["No spending data found for this chemical."])
                (stderr w))
          else if weighted then
            let months := elements (unique_months (keys sd)) in
            let ls := months_result http_get (collect_org_ids sd) (keys sd) ∅ months in
            match find_top_prescriber_by_month_weighted_float sd ls with
            | inr rows =>
                (inr tt,
                 IO (requested2 ++ (org_details_url <$> months))
                    (stdout2 ++ (row_text <$> rows))
                    (stderr w ++ omap (month_warning http_get) months))
            | inl e =>
                (inl (SystemExit 1),
                 IO (requested2 ++ (org_details_url <$> months)) stdout2
                    (stderr w ++ omap (month_warning http_get) months
                     ++ ["Error: " +:+ str_of_exn e]))
            end
          else
            (inr tt,
             IO requested2 (stdout2 ++ (row_text <$> find_top_prescriber_by_month sd))
                (stderr w))
      end
  end.

(** The rate of an entry as Python computes it: [items / list_size], or
    the exception that the division raises. *)
Definition float_rate (list_sizes : gmap string (gmap (option string) Z))
    (date : string) (e : entry) : exn + Q :=
  truediv (items e) (list_size_at list_sizes date (org_id e)).

(** What one round of the loop over the dates appends for [date], if
    anything, or the exception that ends the loop. *)
Definition top_weighted_float (spending_data : gmap string (list entry))
    (list_sizes : gmap string (gmap (option string) Z)) (date : string)
    : exn + option (string * option string) :=
  match spending_data !! date with
  | Some icb_data =>
      match icb_rates_loop list_sizes date [] icb_data with
      | inl e => inl e
      | inr [] => inr None
      | inr (first :: rest) =>
          inr (Some (date, rate_org_name (max_from Qgtb rate first rest)))
      end
  | None => inr None
  end.

(** The row of [date] in the ranking, if the round of [date] appends one. *)
Definition float_row (spending_data : gmap string (list entry))
    (list_sizes : gmap string (gmap (option string) Z)) (date : string)
    : option (string * option string) :=
  match top_weighted_float spending_data list_sizes date with
  | inr row => row
  | inl _ => None
  end.

(** ** Sample data *)

(** One date with the entries A:5, B:9, C:9. *)
Definition spending_tie : gmap string (list entry) :=
  {[ "2023-05-01" := [Entry (Some "a") (Some "A") 5 0 0;
                      Entry (Some "b") (Some "B") 9 0 0;
                      Entry (Some "c") (Some "C") 9 0 0] ]}.

(** One date whose only entry, A with 100 items, has population zero. *)
Definition spending_single : gmap string (list entry) :=
  {[ "2023-05-01" := [Entry (Some "a") (Some "A") 100 0 0] ]}.

Definition list_sizes_zero : gmap string (gmap (option string) Z) :=
  {[ "2023-05-01" := {[ Some "a" := 0 ]} ]}.

(** One date with A: 10 items for a population of 50, and B: 12 for 40. *)
Definition spending_rates : gmap string (list entry) :=
  {[ "2023-04-01" := [Entry (Some "a") (Some "A") 10 0 0;
                      Entry (Some "b") (Some "B") 12 0 0] ]}.

Definition list_sizes_rates : gmap string (gmap (option string) Z) :=
  {[ "2023-04-01" := {[ Some "a" := 50; Some "b" := 40 ]} ]}.

(** The objects of a spending response: two of May 2023, the later one
    without numbers, and between them one without a date. *)
Definition sample_spending : list item :=
  [Item None None (Some "2023-05-01") (Some "a") (Some "A") (Some 5) (Some 7) (Some 1.5%Q) None;
   Item None None None (Some "b") (Some "B") (Some 9) None None None;
   Item None None (Some "2023-05-01") (Some "c") (Some "C") None None None None].

(** A remote service that knows the list sizes of May 2023 and the
    substance 0407010H0, and fails on every other request. *)
Definition sample_remote (url : string) : string + list item :=
  if bool_decide (url = org_details_url "2023-05") then
    inr [Item None None None (Some "a") None None None None (Some 100)]
  else if bool_decide (url = check_code_url "0407010H0") then
    inr [Item (Some "0407010H0") (Some "Paracetamol") None None None None None None None]
  else if bool_decide (url = chemical_name_url "0407010H0") then
    inr [Item (Some "0407010H0AAAMAM") (Some "Paracetamol 500mg tablets")
           None None None None None None None;
         Item (Some "0407010H0") (Some "Paracetamol") None None None None None None None]
  else if bool_decide (url = spending_url "0407010H0") then
    inr sample_spending
  else inl "503 Server Error".

(** A remote service that answers every request with an empty list. *)
Definition remote_empty : remote := λ _, inr [].

(** The sample service with a spending response that has no object. *)
Definition sample_remote_no_spending : remote := λ url,
  if bool_decide (url = spending_url "0407010H0") then inr [] else sample_remote url.

(** The sample service with a spending request that fails. *)
Definition sample_remote_spending_down : remote := λ url,
  if bool_decide (url = spending_url "0407010H0") then inl "504 Gateway Timeout"
  else sample_remote url.

(** The sample service with a list-size request that fails. *)
Definition sample_remote_sizes_down : remote := λ url,
  if bool_decide (url = org_details_url "2023-05") then inl "504 Gateway Timeout"
  else sample_remote url.

(** One date on which X has 2^27+2 items for a population of 2^27+1 and
    Y has 2^27+1 items for a population of 2^27: the quotient of Y is the
    larger one, and both round to the same double. *)
Definition spending_close : gmap string (list entry) :=
  {[ "2023-05-01" := [Entry (Some "x") (Some "X") 134217730 0 0;
                      Entry (Some "y") (Some "Y") 134217729 0 0] ]}.

Definition list_sizes_close : gmap string (gmap (option string) Z) :=
  {[ "2023-05-01" := {[ Some "x" := 134217729; Some "y" := 134217728 ]} ]}.

(** One date whose only entry has 2^1024 items for a population of 1. *)
Definition spending_huge : gmap string (list entry) :=
  {[ "2023-05-01" := [Entry (Some "a") (Some "A") (2 ^ 1024) 0 0] ]}.

Definition list_sizes_one : gmap string (gmap (option string) Z) :=
  {[ "2023-05-01" := {[ Some "a" := 1 ]} ]}.

(** The sample service with a spending response of two months: in May
    2023 the organization a has 2^1040 items, in June 2023 it has 3. The
    list sizes of June are not known to the service. *)
Definition sample_remote_huge : remote := λ url,
  if bool_decide (url = spending_url "0407010H0") then
    inr [Item None None (Some "2023-05-01") (Some "a") (Some "A") (Some (2 ^ 1040))
           None None None;
         Item None None (Some "2023-06-01") (Some "a") (Some "A") (Some 3) None None None]
  else sample_remote url.

(** ** Builtins: [max] and [sorted] *)

Section MaxFrom.
Context {A K : Type} (gt : K → K → bool) (key : A → K).
Hypothesis gt_irrefl : ∀ a, ¬ gt a a.
Hypothesis gt_trans : ∀ a b c, gt a b → gt b c → gt a c.
Hypothesis gt_above : ∀ a b c, gt a b → ¬ gt c b → gt a c.

(** The loop invariant of [max]: the running maximum [best] strictly
    exceeds what came before it and is not exceeded by what was seen
    since. *)
Lemma max_from_invariant (pre : list A) (best : A) (mid rest : list A) :
  Forall (λ x, gt (key best) (key x)) pre →
  Forall (λ x, ¬ gt (key x) (key best)) mid →
  ∃ i, (pre ++ best :: mid ++ rest) !! i = Some (max_from gt key best rest)
    ∧ (∀ x, x ∈ pre ++ best :: mid ++ rest →
         ¬ gt (key x) (key (max_from gt key best rest)))
    ∧ (∀ j x, (j < i)%nat → (pre ++ best :: mid ++ rest) !! j = Some x →
         gt (key (max_from gt key best rest)) (key x)).
Proof.
  revert pre best mid. induction rest as [|x rest IH]; intros pre best mid Hpre Hmid.
  - exists (length pre). simpl. rewrite app_nil_r. split; [|split].
    + by rewrite list_lookup_middle.
    + intros x [Hx|Hx]%elem_of_app.
      * rewrite Forall_forall in Hpre. intros Hgt.
        apply (gt_irrefl (key x)). eapply gt_trans; [done|]. by apply Hpre.
      * apply elem_of_cons in Hx as [->|Hx]; [apply gt_irrefl|].
        rewrite Forall_forall in Hmid. by apply Hmid.
    + intros j x Hj Hx. rewrite lookup_app_l in Hx by done.
      rewrite Forall_forall in Hpre. apply Hpre. by eapply list_elem_of_lookup_2.
  - simpl. destruct (gt (key x) (key best)) eqn:Hgt.
    + destruct (IH (pre ++ best :: mid) x []) as (i & Hi & Hmax & Hbefore).
      * apply Forall_app; split; [|apply Forall_cons; split].
        -- eapply Forall_impl; [exact Hpre|]. intros y Hy. simpl in Hy.
           eapply gt_trans; [|exact Hy]. by rewrite Hgt.
        -- by rewrite Hgt.
        -- eapply Forall_impl; [exact Hmid|]. intros y Hy. simpl in Hy.
           eapply gt_above; [|exact Hy]. by rewrite Hgt.
      * constructor.
      * exists i. simpl in *.
        rewrite <-app_assoc in Hi, Hmax, Hbefore.
        exact (conj Hi (conj Hmax Hbefore)).
    + destruct (IH pre best (mid ++ [x])) as (i & Hi & Hmax & Hbefore).
      * done.
      * apply Forall_app; split; [done|]. apply Forall_singleton.
        intros H. by rewrite Hgt in H.
      * exists i. by rewrite <-app_assoc in Hi, Hmax, Hbefore.
Qed.

(** [max] returns the first element whose key nothing exceeds. *)
Lemma max_from_first_max (first : A) (rest : list A) :
  ∃ i, (first :: rest) !! i = Some (max_from gt key first rest)
    ∧ (∀ x, x ∈ first :: rest → ¬ gt (key x) (key (max_from gt key first rest)))
    ∧ (∀ j x, (j < i)%nat → (first :: rest) !! j = Some x →
         gt (key (max_from gt key first rest)) (key x)).
Proof. apply (max_from_invariant [] first [] rest); constructor. Qed.
End MaxFrom.

Lemma max_from_items (first : entry) (rest : list entry) :
  ∃ i, (first :: rest) !! i = Some (max_from Z.gtb items first rest)
    ∧ (∀ x, x ∈ first :: rest → items x ≤ items (max_from Z.gtb items first rest))
    ∧ (∀ j x, (j < i)%nat → (first :: rest) !! j = Some x →
         items x < items (max_from Z.gtb items first rest)).
Proof.
  assert (Hgt : ∀ a b, Z.gtb a b ↔ b < a).
  { intros a b. rewrite Z.gtb_ltb, Is_true_true. apply Z.ltb_lt. }
  destruct (max_from_first_max Z.gtb items) with (first := first) (rest := rest)
    as (i & Hi & Hmax & Hbefore).
  - intros a. rewrite Hgt. lia.
  - intros a b c. rewrite !Hgt. lia.
  - intros a b c. rewrite !Hgt. lia.
  - exists i. split; [done|]. split.
    + intros x Hx. specialize (Hmax x Hx). rewrite Hgt in Hmax. lia.
    + intros j x Hj Hx. apply Hgt. by eapply Hbefore.
Qed.


Lemma str_le_ne_lt (a b : string) : String.le a b → a ≠ b → str_lt a b.
Proof.
  unfold String.le, str_lt, String.leb, String.ltb. intros Hle Hne.
  destruct (a ?= b)%string eqn:E; try done.
  by apply String.compare_eq_iff in E.
Qed.

Lemma sorted_increasing (l : list string) : NoDup l → StronglySorted str_lt (sorted l).
Proof.
  intros Hnd. unfold sorted.
  assert (Hnd' : NoDup (merge_sort String.le l)) by by rewrite merge_sort_Permutation.
  assert (Hs : StronglySorted String.le (merge_sort String.le l))
    by apply (StronglySorted_merge_sort _).
  induction Hs as [|x k Hs IH Hall]; [constructor|].
  apply NoDup_cons in Hnd' as [Hx Hk]. constructor; [by apply IH|].
  rewrite Forall_forall in *. intros y Hy. apply str_le_ne_lt; [by apply Hall|].
  by intros ->.
Qed.

Lemma elem_of_sorted_keys {V} (d : gmap string V) (k : string) :
  k ∈ sorted (keys d) ↔ is_Some (d !! k).
Proof.
  unfold sorted, keys. by rewrite merge_sort_Permutation, elem_of_elements, elem_of_dom.
Qed.

Lemma sorted_keys_increasing {V} (d : gmap string V) :
  StronglySorted str_lt (sorted (keys d)).
Proof. apply sorted_increasing, NoDup_elements. Qed.

(** A loop that appends at most one element per round is an [omap]. *)
Lemma foldl_append_omap {A B} (f : A → option B) (step : list B → A → list B)
    (l : list A) (acc : list B) :
  (∀ acc x, step acc x = acc ++ option_list (f x)) →
  foldl step acc l = acc ++ omap f l.
Proof.
  intros Hstep. revert acc. induction l as [|x l IH]; intros acc; simpl.
  - by rewrite app_nil_r.
  - rewrite IH, Hstep. destruct (f x); simpl; by rewrite <-?app_assoc, ?app_nil_r.
Qed.

(** Keeping some keys of an increasing list, each paired with a value,
    leaves the keys increasing. *)
Lemma omap_keyed_increasing {B} (f : string → option (string * B)) (l : list string) :
  (∀ x y, f x = Some y → y.1 = x) →
  StronglySorted str_lt l → StronglySorted str_lt ((omap f l).*1).
Proof.
  intros Hf Hs. induction Hs as [|x l Hs IH Hall]; [constructor|].
  simpl. destruct (f x) as [y|] eqn:E; [|done].
  simpl. constructor; [done|]. rewrite (Hf _ _ E).
  rewrite Forall_forall in *. intros d ([d' n] & -> & Hd)%list_elem_of_fmap.
  apply list_elem_of_omap in Hd as (k & Hk & Hfk). apply Hf in Hfk. simpl in *. subst.
  by apply Hall.
Qed.

(** ** Ranking engine: the loops as one pass over the sorted dates *)

Lemma find_top_prescriber_by_month_omap (sd : gmap string (list entry)) :
  find_top_prescriber_by_month sd = omap (top_unweighted sd) (sorted (keys sd)).
Proof.
  unfold find_top_prescriber_by_month.
  rewrite (foldl_append_omap (top_unweighted sd)); [done|].
  intros acc d. unfold top_unweighted.
  destruct (sd !! d) as [[|first rest]|]; simpl; by rewrite ?app_nil_r.
Qed.


Lemma top_unweighted_date sd d y : top_unweighted sd d = Some y → y.1 = d.
Proof.
  unfold top_unweighted. destruct (sd !! d) as [[|??]|]; naive_solver.
Qed.


Lemma elem_of_find_top_prescriber_by_month sd d n :
  (d, n) ∈ find_top_prescriber_by_month sd ↔ top_unweighted sd d = Some (d, n).
Proof.
  rewrite find_top_prescriber_by_month_omap, list_elem_of_omap. split.
  - intros (k & _ & Hk). pose proof (top_unweighted_date _ _ _ Hk) as E.
    simpl in E. by subst.
  - intros H. exists d. split; [|done]. apply elem_of_sorted_keys.
    unfold top_unweighted in H. by destruct (sd !! d).
Qed.


(** ** Weighted ranking: which entries get a rate *)

Lemma list_size_at_population ls d org :
  list_size_at ls d org = default 0 (population ls d org).
Proof. unfold list_size_at, population. by destruct (ls !! d). Qed.

Lemma usable_list_size ls d e : usable ls d e ↔ 0 < list_size_at ls d (org_id e).
Proof.
  rewrite list_size_at_population. unfold usable.
  destruct (population ls d (org_id e)) as [p|]; simpl.
  - split; [by intros (? & [= <-] & ?)|by exists p].
  - split; [by intros (? & [=] & _)|lia].
Qed.


(** ** Ranking engine: what the result holds *)

(** C1. Unweighted ranking: for a date of the spending mapping that has at
    least one entry, the result pairs the date with the organization name
    of the first entry, in iteration order, whose item count is the maximum
    of the date's entries, and with no other name. *)
Theorem find_top_prescriber_by_month_first_max
    (sd : gmap string (list entry)) (d : string) (es : list entry) :
  sd !! d = Some es → es ≠ [] →
  ∃ i e, es !! i = Some e
    ∧ (∀ x, x ∈ es → items x ≤ items e)
    ∧ (∀ j x, (j < i)%nat → es !! j = Some x → items x < items e)
    ∧ (∀ n, (d, n) ∈ find_top_prescriber_by_month sd ↔ n = org_name e).
Proof.
  intros Hd Hes. destruct es as [|first rest]; [done|].
  destruct (max_from_items first rest) as (i & Hi & Hmax & Hbefore).
  exists i, (max_from Z.gtb items first rest). do 3 (split; [done|]).
  intros n. rewrite elem_of_find_top_prescriber_by_month.
  unfold top_unweighted. rewrite Hd. naive_solver.
Qed.

(** The date with entries A:5, B:9, C:9 is paired with B. *)
Lemma find_top_prescriber_by_month_first_max_witness :
  spending_tie !! "2023-05-01"
    = Some [Entry (Some "a") (Some "A") 5 0 0; Entry (Some "b") (Some "B") 9 0 0;
            Entry (Some "c") (Some "C") 9 0 0]
  ∧ ("2023-05-01", Some "B") ∈ find_top_prescriber_by_month spending_tie.
Proof.
  split; [reflexivity|].
  destruct (find_top_prescriber_by_month_first_max spending_tie "2023-05-01"
    [Entry (Some "a") (Some "A") 5 0 0; Entry (Some "b") (Some "B") 9 0 0;
     Entry (Some "c") (Some "C") 9 0 0] eq_refl)
    as (i & e & Hi & Hmax & Hbefore & Hres); [discriminate|].
  apply Hres.
  destruct i as [|[|[|i]]]; simpl in Hi; [| |  |discriminate]; injection Hi as <-.
  - exfalso. pose proof (Hmax (Entry (Some "b") (Some "B") 9 0 0)) as H.
    simpl in H. enough (9 ≤ 5) by lia. apply H. apply list_elem_of_In. simpl. tauto.
  - reflexivity.
  - exfalso. pose proof (Hbefore 1%nat (Entry (Some "b") (Some "B") 9 0 0)) as H.
    simpl in H. enough (9 < 9) by lia. apply H; [lia|reflexivity].
Defined.




(** With A: 10 items for 50 and B: 12 items for 40 the weighted ranking
    picks B, and so does the unweighted one. *)
Example weighted_rates_pick_B :
  find_top_prescriber_by_month_weighted spending_rates list_sizes_rates
  = [("2023-04-01", Some "B")].
Proof. vm_compute. reflexivity. Qed.

(** The date whose only entry has population zero is in the unweighted
    result and not in the weighted one. *)
Example zero_population_excluded :
  find_top_prescriber_by_month spending_single = [("2023-05-01", Some "A")]
  ∧ find_top_prescriber_by_month_weighted spending_single list_sizes_zero = [].
Proof. split; vm_compute; reflexivity. Qed.

(** ** Strings *)

Lemma length_substring_0 (n : nat) (s : string) :
  (n ≤ String.length s)%nat → String.length (String.substring 0 n s) = n.
Proof.
  revert s. induction n as [|n IH]; intros [|c s] Hn; simpl in *; try done; try lia.
  f_equal. apply IH. lia.
Qed.

(** ** Code resolver *)

Lemma has_exact_id_true (code : string) (data : list item) :
  has_exact_id code data = true ↔ ∃ item, item ∈ data ∧ get_id item = Some code.
Proof.
  induction data as [|item data IH]; simpl.
  - split; [done|]. by intros (? & ?%elem_of_nil & _).
  - case_bool_decide as Hid.
    + split; [|done]. intros _. exists item. split; [left|done].
    + rewrite IH. split.
      * intros (x & ? & ?). exists x. split; [by right|done].
      * intros (x & [->|?]%elem_of_cons & ?); [done|]. by exists x.
Qed.

(** What [check_code_exists] returns and what it does. *)
Lemma check_code_exists_run (http_get : remote) (code : string) (w : io) :
  check_code_exists http_get code w
  = (inr match http_get (check_code_url code) with
         | inl _ => false
         | inr data => has_exact_id code data
         end,
     IO (requested w ++ [check_code_url code]) (stdout w) (stderr w)).
Proof.
  unfold check_code_exists, try_except, bind, requests_get_json, ret.
  by destruct (http_get _).
Qed.

Lemma check_code_exists_true (http_get : remote) (code : string) :
  match http_get (check_code_url code) with
  | inl _ => false
  | inr data => has_exact_id code data
  end = true ↔ catalog_has http_get code.
Proof.
  unfold catalog_has. destruct (http_get _) as [e|data].
  - split; [done|]. by intros (? & ? & [=] & _).
  - rewrite has_exact_id_true. split.
    + intros (x & ? & ?). by exists data, x.
    + intros (? & x & [= <-] & ? & ?). by exists x.
Qed.

(** C8. For an input whose length is not 15, the resolver raises a
    [ValueError] whose message ends with the decimal numeral of the actual
    length, and it requests nothing. *)
Theorem extract_chemical_code_length_error (http_get : remote) (bnf_code : string) (w : io) :
  String.length bnf_code ≠ 15%nat →
  extract_chemical_code http_get bnf_code w
  = (inl (ValueError ("BNF code must be exactly 15 characters, got "
                      +:+ pretty (String.length bnf_code))), w).
Proof.
  intros Hlen. unfold extract_chemical_code.
  by apply Nat.eqb_neq in Hlen as ->.
Qed.

(** A code of ten characters is refused, and the message says ten. *)
Lemma extract_chemical_code_length_error_witness :
  String.length "0123456789" ≠ 15%nat
  ∧ extract_chemical_code sample_remote "0123456789" io0
    = (inl (ValueError "BNF code must be exactly 15 characters, got 10"), io0).
Proof.
  assert (Hlen : String.length "0123456789" ≠ 15%nat) by (simpl; lia).
  split; [exact Hlen|].
  rewrite (extract_chemical_code_length_error sample_remote "0123456789" io0 Hlen).
  reflexivity.
Defined.

(** C3. For a code of 15 characters the resolver returns a value: the
    9-character prefix when the existence check finds it, otherwise the
    7-character prefix when the check finds that, otherwise the 9-character
    prefix. The existence check returns a boolean, true exactly when the
    response holds an object whose identifier is the candidate, and false
    when the request fails. *)
Theorem extract_chemical_code_resolves (http_get : remote) (bnf_code : string) (w : io)
    (code : string) (w' : io) :
  String.length bnf_code = 15%nat →
  (∃ r, (extract_chemical_code http_get bnf_code w).1 = inr r
     ∧ (catalog_has http_get (String.substring 0 9 bnf_code) →
          r = String.substring 0 9 bnf_code)
     ∧ (¬ catalog_has http_get (String.substring 0 9 bnf_code) →
        catalog_has http_get (String.substring 0 7 bnf_code) →
          r = String.substring 0 7 bnf_code)
     ∧ (¬ catalog_has http_get (String.substring 0 9 bnf_code) →
        ¬ catalog_has http_get (String.substring 0 7 bnf_code) →
          r = String.substring 0 9 bnf_code))
  ∧ (∃ b, (check_code_exists http_get code w').1 = inr b
       ∧ (b = true ↔ catalog_has http_get code)
       ∧ (∀ e, http_get (check_code_url code) = inl e → b = false)).
Proof.
  intros Hlen. split.
  - unfold extract_chemical_code. apply Nat.eqb_eq in Hlen as ->. simpl.
    unfold bind. rewrite check_code_exists_run.
    pose proof (check_code_exists_true http_get (String.substring 0 9 bnf_code)) as H9.
    destruct (match http_get (check_code_url (String.substring 0 9 bnf_code)) with
              | inl _ => false | inr data => _ end).
    { eexists. split; [done|]. split; [done|]. split; intros Hn; by destruct Hn as []; apply H9. }
    rewrite check_code_exists_run.
    pose proof (check_code_exists_true http_get (String.substring 0 7 bnf_code)) as H7.
    destruct (match http_get (check_code_url (String.substring 0 7 bnf_code)) with
              | inl _ => false | inr data => _ end).
    + eexists. split; [done|]. split; [by intros ?%H9|]. split; [done|].
      intros _ Hn. by destruct Hn as []; apply H7.
    + eexists. split; [done|]. split; [done|]. split; [by intros _ ?%H7|done].
  - rewrite check_code_exists_run. eexists. split; [done|].
    split; [apply check_code_exists_true|]. by intros e ->.
Qed.

(** A code whose 9-character prefix is in the catalogue resolves to it. *)
Lemma extract_chemical_code_resolves_witness :
  String.length "0407010H0AAAMAM" = 15%nat
  ∧ (extract_chemical_code sample_remote "0407010H0AAAMAM" io0).1 = inr "0407010H0".
Proof.
  split; [reflexivity|].
  destruct (extract_chemical_code_resolves sample_remote "0407010H0AAAMAM" io0
              "0407010H0" io0 eq_refl) as [(r & Hr & H9 & _) _].
  rewrite Hr, H9; [reflexivity|].
  exists [Item (Some "0407010H0") (Some "Paracetamol") None None None None None None None],
    (Item (Some "0407010H0") (Some "Paracetamol") None None None None None None None).
  split; [reflexivity|]. split; [left|reflexivity].
Defined.

(** ** Catalogue look-up *)

(** The loop of [get_chemical_name] acts on nothing; it returns the name of
    the first object with the queried identifier, and raises a [ValueError]
    when there is none. *)
Lemma find_exact_name_match (code : string) (pre post : list item) (item : item) (w : io) :
  (∀ x, x ∈ pre → get_id x ≠ Some code) → get_id item = Some code →
  find_exact_name code (pre ++ item :: post) w
  = (inr (default "Unknown chemical" (get_name item)), w).
Proof.
  intros Hpre Hitem. induction pre as [|x pre IH]; simpl.
  - by rewrite bool_decide_eq_true_2.
  - rewrite bool_decide_eq_false_2 by (apply Hpre; left).
    apply IH. intros y Hy. apply Hpre. by right.
Qed.

Lemma find_exact_name_no_match (code : string) (data : list item) (w : io) :
  (∀ x, x ∈ data → get_id x ≠ Some code) →
  find_exact_name code data w
  = (inl (ValueError ("No exact match found for chemical code " +:+ code)), w).
Proof.
  intros Hdata. induction data as [|x data IH]; simpl; [done|].
  rewrite bool_decide_eq_false_2 by (apply Hdata; left).
  apply IH. intros y Hy. apply Hdata. by right.
Qed.

(** A list either holds a first object with the identifier or none. *)
Lemma first_exact_id (code : string) (data : list item) :
  (∃ pre item post, data = pre ++ item :: post
     ∧ (∀ x, x ∈ pre → get_id x ≠ Some code) ∧ get_id item = Some code)
  ∨ (∀ x, x ∈ data → get_id x ≠ Some code).
Proof.
  induction data as [|x data IH].
  - right. by intros ? ?%elem_of_nil.
  - destruct (decide (get_id x = Some code)) as [Hx|Hx].
    + left. exists [], x, data. split; [done|]. split; [by intros ? ?%elem_of_nil|done].
    + destruct IH as [(pre & item & post & -> & Hpre & Hitem)|Hnone].
      * left. exists (x :: pre), item, post. split; [done|]. split; [|done].
        intros y [->|Hy]%elem_of_cons; [done|by apply Hpre].
      * right. intros y [->|Hy]%elem_of_cons; [done|by apply Hnone].
Qed.

Lemma first_exact_id_unique (code : string) (pre pre' post post' : list item)
    (item item' : item) :
  pre ++ item :: post = pre' ++ item' :: post' →
  (∀ x, x ∈ pre → get_id x ≠ Some code) → get_id item = Some code →
  (∀ x, x ∈ pre' → get_id x ≠ Some code) → get_id item' = Some code →
  pre = pre' ∧ item = item'.
Proof.
  revert pre'. induction pre as [|x pre IH]; intros [|x' pre'] Heq Hpre Hitem Hpre' Hitem'.
  - by injection Heq as <- _.
  - injection Heq as <- _. destruct (Hpre' item); [left|done].
  - injection Heq as -> _. destruct (Hpre item'); [left|done].
  - injection Heq as <- Heq. destruct (IH pre') as [<- <-]; try done.
    + intros y Hy. apply Hpre. by right.
    + intros y Hy. apply Hpre'. by right.
Qed.

(** C4. The look-up raises an [Exception] exactly when the request fails,
    or the response is empty, or no object of the response has the queried
    identifier; for a failed request the message carries the text of the
    underlying error; it raises nothing else; and otherwise it returns the
    name of the first object with that identifier, or "Unknown chemical"
    when that object has no name. *)
Theorem get_chemical_name_result (http_get : remote) (chemical_code : string) (w : io) :
  ((∃ msg, (get_chemical_name http_get chemical_code w).1 = inl (Exception msg))
   ↔ ((∃ e, http_get (chemical_name_url chemical_code) = inl e)
      ∨ http_get (chemical_name_url chemical_code) = inr []
      ∨ ∃ data, http_get (chemical_name_url chemical_code) = inr data
          ∧ ∀ x, x ∈ data → get_id x ≠ Some chemical_code))
  ∧ (∀ e, http_get (chemical_name_url chemical_code) = inl e →
       (get_chemical_name http_get chemical_code w).1
       = inl (Exception ("Failed to fetch data from API: " +:+ e)))
  ∧ (∀ e, (get_chemical_name http_get chemical_code w).1 = inl e → ∃ msg, e = Exception msg)
  ∧ (∀ pre item post,
       http_get (chemical_name_url chemical_code) = inr (pre ++ item :: post) →
       (∀ x, x ∈ pre → get_id x ≠ Some chemical_code) →
       get_id item = Some chemical_code →
       (get_chemical_name http_get chemical_code w).1
       = inr (default "Unknown chemical" (get_name item))).
Proof.
  unfold get_chemical_name, try_except, bind, requests_get_json.
  destruct (http_get (chemical_name_url chemical_code)) as [e|data] eqn:Hget; simpl.
  { split; [|split; [|split]].
    - split; [intros _; left; by exists e|by eexists].
    - by intros ? [= ->].
    - intros ? [= <-]. by eexists.
    - done. }
  destruct (first_exact_id chemical_code data)
    as [(pre & item & post & -> & Hpre & Hitem)|Hnone].
  - assert (Hrun : ∀ w0, match pre ++ item :: post with
                         | [] => raise (ValueError ("No data found for chemical code "
                                                    +:+ chemical_code))
                         | _ => find_exact_name chemical_code (pre ++ item :: post)
                         end w0
                         = (inr (default "Unknown chemical" (get_name item)), w0)).
    { intros w0. rewrite <-(find_exact_name_match chemical_code pre post item w0) by done.
      by destruct pre. }
    rewrite Hrun. simpl. split; [|split; [|split]].
    + split; [by intros (? & [=])|].
      intros [(? & [=])|[Hnil|(data & [= <-] & Hnone)]].
      * by destruct pre.
      * exfalso. apply (Hnone item); [|done]. apply elem_of_app. right. left.
    + done.
    + done.
    + intros pre' item' post' [= Heq] Hpre' Hitem'.
      by destruct (first_exact_id_unique chemical_code pre pre' post post' item item')
        as [_ <-].
  - assert (Hrun : ∀ w0, ∃ msg, match data with
                         | [] => raise (ValueError ("No data found for chemical code "
                                                    +:+ chemical_code))
                         | _ => find_exact_name chemical_code data
                         end w0 = (inl (ValueError msg), w0)).
    { intros w0. destruct data; [by eexists|].
      rewrite find_exact_name_no_match by done. by eexists. }
    destruct (Hrun (IO (requested w ++ [chemical_name_url chemical_code]) (stdout w) (stderr w)))
      as (msg & ->). simpl. split; [|split; [|split]].
    + split; [|by eexists]. intros _. right. right. by exists data.
    + done.
    + intros ? [= <-]. by eexists.
    + intros pre item post [= ->] _ Hitem. exfalso.
      apply (Hnone item); [|done]. apply elem_of_app. right. left.
Qed.

(** The name is that of the object whose identifier is the code, not that
    of a longer identifier before it; a failed request is wrapped. *)
Lemma get_chemical_name_result_witness :
  (get_chemical_name sample_remote "0407010H0" io0).1 = inr "Paracetamol"
  ∧ (get_chemical_name sample_remote "0407010" io0).1
    = inl (Exception "Failed to fetch data from API: 503 Server Error").
Proof.
  destruct (get_chemical_name_result sample_remote "0407010H0" io0) as (_ & _ & _ & Hname).
  destruct (get_chemical_name_result sample_remote "0407010" io0) as (_ & Hfail & _).
  split.
  - rewrite (Hname
      [Item (Some "0407010H0AAAMAM") (Some "Paracetamol 500mg tablets")
         None None None None None None None]
      (Item (Some "0407010H0") (Some "Paracetamol") None None None None None None None) []).
    + reflexivity.
    + reflexivity.
    + intros x Hx. apply list_elem_of_singleton in Hx. subst x. discriminate.
    + reflexivity.
  - rewrite (Hfail "503 Server Error"); reflexivity.
Defined.

(** ** Spending collector *)

Lemma spending_step_lookup (acc : gmap string (list entry)) (it : item) (d : string) :
  spending_step acc it !! d
  = if decide (get_date it = Some d ∧ d ≠ "")
    then Some (default [] (acc !! d) ++ [entry_of_item it])
    else acc !! d.
Proof.
  unfold spending_step. destruct (get_date it) as [date|].
  - case_bool_decide as Hne.
    + destruct (decide (date = d)) as [->|Hd].
      * rewrite decide_True by done. apply lookup_insert_eq.
      * rewrite decide_False by (intros [[=] _]; done). by apply lookup_insert_ne.
    + rewrite decide_False; [done|]. intros [[= ->] ?]. done.
  - by rewrite decide_False by (by intros [[=] _]).
Qed.

(** The grouping loop, started from any dictionary: under a date that is
    not empty, the entries of the objects with that date are appended in
    the order of the response; nothing else changes. *)
Lemma foldl_spending_step (data : list item) (acc : gmap string (list entry)) (d : string) :
  foldl spending_step acc data !! d
  = match entry_of_item <$> filter (λ it, get_date it = Some d) data with
    | [] => acc !! d
    | group => if decide (d = "") then acc !! d else Some (default [] (acc !! d) ++ group)
    end.
Proof.
  revert acc. induction data as [|it data IH]; intros acc; [done|].
  simpl. rewrite IH, filter_cons, spending_step_lookup. clear IH.
  destruct (decide (get_date it = Some d)) as [Hd|Hd].
  - csimpl. destruct (decide (d = "")) as [->|Hne].
    + rewrite decide_False by (by intros [_ ?]).
      by destruct (entry_of_item <$> filter _ data).
    + rewrite decide_True by done. simpl.
      destruct (entry_of_item <$> filter _ data); [done|]. by rewrite <-app_assoc.
  - by rewrite decide_False by (by intros [? _]).
Qed.

(** C5. The spending collector fails with an [Exception] that carries the
    text of the underlying error when the request fails. Otherwise it
    returns a mapping in which each date that is not empty and occurs in
    the response is bound to the entries of the objects with that date, in
    the order of the response, each entry made of the object's row id, row
    name, items, quantity and cost, the last three being 0 when absent;
    no other date is bound, so objects without a date are dropped, and
    nothing is printed. *)
Theorem get_spending_data_groups (http_get : remote) (chemical_code : string) (w : io) :
  (∀ e, http_get (spending_url chemical_code) = inl e →
     (get_spending_data http_get chemical_code w).1
     = inl (Exception ("Failed to fetch spending data from API: " +:+ e)))
  ∧ (∀ data, http_get (spending_url chemical_code) = inr data →
     ∃ m, (get_spending_data http_get chemical_code w).1 = inr m
       ∧ (∀ d, m !! d
            = match (λ it, Entry (get_row_id it) (get_row_name it)
                             (default 0 (get_items it)) (default 0 (get_quantity it))
                             (default 0%Q (get_actual_cost it)))
                    <$> filter (λ it, get_date it = Some d) data with
              | [] => None
              | group => if decide (d = "") then None else Some group
              end)
       ∧ stdout (get_spending_data http_get chemical_code w).2 = stdout w
       ∧ stderr (get_spending_data http_get chemical_code w).2 = stderr w).
Proof.
  unfold get_spending_data, try_except, bind, requests_get_json, ret, raise.
  split.
  - by intros e ->.
  - intros data ->. simpl. eexists. split; [done|]. split; [|done].
    intros d. rewrite foldl_spending_step. rewrite lookup_empty. done.
Qed.

(** The two objects of May 2023 are grouped in the order of the response,
    the missing numbers being 0, and the object without a date is dropped. *)
Lemma get_spending_data_groups_witness :
  ∃ m, (get_spending_data sample_remote "0407010H0" io0).1 = inr m
    ∧ m !! "2023-05-01" = Some [Entry (Some "a") (Some "A") 5 7 1.5%Q;
                                Entry (Some "c") (Some "C") 0 0 0%Q]
    ∧ m !! "" = None.
Proof.
  destruct (get_spending_data_groups sample_remote "0407010H0" io0) as [_ Hgroups].
  destruct (Hgroups sample_spending eq_refl) as (m & Hm & Hlookup & _).
  exists m. split; [exact Hm|]. rewrite !Hlookup. split; reflexivity.
Defined.

(** ** Population collector *)

Lemma store_dates_lookup (dates : list string) (ym : string) (org : option string) (v : Z)
    (ls : gmap string (gmap (option string) Z)) (d : string) :
  store_dates dates ym org v ls !! d
  = if decide (d ∈ dates ∧ String.prefix ym d = true)
    then Some (<[org := v]> (default ∅ (ls !! d)))
    else ls !! d.
Proof.
  unfold store_dates. revert ls. induction dates as [|date dates IH]; intros ls; cbn [foldl].
  - rewrite decide_False; [done|]. by intros [?%elem_of_nil _].
  - rewrite IH. clear IH.
    assert (Hstep : (if String.prefix ym date then set_list_size date org v ls else ls) !! d
              = if decide (date = d ∧ String.prefix ym d = true)
                then Some (<[org := v]> (default ∅ (ls !! d))) else ls !! d).
    { destruct (decide (date = d)) as [->|Hne].
      - destruct (String.prefix ym d).
        + rewrite decide_True by done. apply lookup_insert_eq.
        + by rewrite decide_False by (by intros [_ ?]).
      - rewrite decide_False by (by intros [? _]).
        destruct (String.prefix ym date); [|done]. by apply lookup_insert_ne. }
    rewrite Hstep. clear Hstep.
    destruct (decide (d ∈ dates ∧ String.prefix ym d = true)) as [[Hin Hp]|Hrest].
    + rewrite (decide_True (P := d ∈ date :: dates ∧ _)) by (split; [by right|done]).
      destruct (decide (date = d ∧ _)); [|done]. simpl. by rewrite insert_insert_eq.
    + destruct (decide (date = d ∧ String.prefix ym d = true)) as [[-> Hp]|Hhere].
      * rewrite decide_True; [done|]. split; [left|done].
      * rewrite decide_False; [done|]. intros [[->|?]%elem_of_cons ?]; tauto.
Qed.

Lemma store_month_lookup (org_ids : gset (option string)) (dates : list string)
    (ym : string) (data : list item) (ls : gmap string (gmap (option string) Z)) (d : string) :
  store_month org_ids dates ym data ls !! d
  = if decide (d ∈ dates ∧ String.prefix ym d = true)
    then store_sizes org_ids data (ls !! d)
    else ls !! d.
Proof.
  unfold store_month, store_sizes. revert ls.
  induction data as [|it data IH]; intros ls; cbn [foldl].
  - by destruct (decide _).
  - rewrite IH. clear IH. case_bool_decide; [|done].
    rewrite store_dates_lookup. by destruct (decide _).
Qed.

(** The population stored for an organization by a monthly response is the
    one the response gives, and what was there before when it gives none. *)
Lemma store_sizes_population (org_ids : gset (option string)) (data : list item)
    (sizes : option (gmap (option string) Z)) (org : option string) :
  store_sizes org_ids data sizes ≫= (λ m, m !! org)
  = match recorded_size org_ids data org with
    | Some v => Some v
    | None => sizes ≫= (λ m, m !! org)
    end.
Proof.
  unfold store_sizes, recorded_size.
  induction data as [|it data IH] using rev_ind.
  - simpl. by destruct (decide _).
  - rewrite foldl_snoc, filter_app, filter_singleton by done.
    destruct (decide (get_row_id it = org)) as [Hit|Hit].
    + rewrite last_snoc. subst org. case_bool_decide as Hin.
      * rewrite decide_True by done. simpl. apply lookup_insert_eq.
      * rewrite decide_False in IH |- * by done. done.
    + rewrite app_nil_r. case_bool_decide as Hin; [|done].
      simpl. rewrite lookup_insert_ne by done. rewrite <-IH.
      by destruct (foldl _ sizes data).
Qed.

(** What the loop over the months returns and what it does: one request per
    month of the list, and one warning per month whose request fails. *)
Lemma months_loop_run (http_get : remote)
    (org_ids : gset (option string)) (dates : list string)
    (ls : gmap string (gmap (option string) Z)) (months : list string) (w : io) :
  months_loop http_get org_ids dates ls months w
  = (inr (months_result http_get org_ids dates ls months),
     IO (requested w ++ (org_details_url <$> months)) (stdout w)
        (stderr w ++ omap (month_warning http_get) months)).
Proof.
  revert ls w. induction months as [|ym months IH]; intros ls w.
  - simpl. unfold ret. rewrite !app_nil_r. by destruct w.
  - cbn [months_loop]. unfold bind at 1.
    unfold month_step, try_except, bind, requests_get_json, ret, print_stderr.
    unfold months_result, month_warning in *. csimpl.
    destruct (http_get (org_details_url ym)) as [e|data]; simpl;
      rewrite IH; simpl; by rewrite <-!app_assoc.
Qed.

(** A month of seven characters is a prefix of exactly the dates that
    start with it. *)
Lemma prefix_month (ym d : string) :
  String.length ym = 7%nat → String.prefix ym d = true ↔ String.substring 0 7 d = ym.
Proof. intros Hlen. by rewrite String.prefix_correct, Hlen. Qed.

(** The loop over distinct months of seven characters: the dictionary of a
    requested date is changed by the response for its month, and by no
    other. *)
Lemma months_result_lookup (http_get : remote)
    (org_ids : gset (option string)) (dates : list string)
    (ls : gmap string (gmap (option string) Z)) (months : list string) (d : string) :
  NoDup months → Forall (λ ym, String.length ym = 7%nat) months →
  months_result http_get org_ids dates ls months !! d
  = if decide (d ∈ dates ∧ String.substring 0 7 d ∈ months)
    then match http_get (org_details_url (String.substring 0 7 d)) with
         | inl _ => ls !! d
         | inr data => store_sizes org_ids data (ls !! d)
         end
    else ls !! d.
Proof.
  unfold months_result. revert ls.
  induction months as [|ym months IH]; intros ls Hnd Hlen; cbn [foldl].
  - rewrite decide_False; [done|]. by intros [_ ?%elem_of_nil].
  - apply NoDup_cons in Hnd as [Hym Hnd]. apply Forall_cons in Hlen as [Hlen7 Hlen].
    rewrite IH by done. clear IH.
    destruct (decide (String.substring 0 7 d = ym)) as [Hd|Hd].
    + rewrite (decide_False (P := d ∈ dates ∧ String.substring 0 7 d ∈ months))
        by (rewrite Hd; tauto).
      destruct (decide (d ∈ dates)) as [Hin|Hin].
      * rewrite decide_True by (split; [done|rewrite Hd; left]).
        rewrite Hd. destruct (http_get (org_details_url ym)) as [e|data]; [done|].
        rewrite store_month_lookup, decide_True; [done|].
        split; [done|]. by apply prefix_month.
      * rewrite decide_False by tauto.
        destruct (http_get (org_details_url ym)) as [e|data]; [done|].
        rewrite store_month_lookup, decide_False; [done|]. tauto.
    + assert (Hsame : match http_get (org_details_url ym) with
                | inl _ => ls
                | inr data => store_month org_ids dates ym data ls
                end !! d = ls !! d).
      { destruct (http_get (org_details_url ym)) as [e|data]; [done|].
        rewrite store_month_lookup, decide_False; [done|].
        intros [_ ?%prefix_month]; done. }
      rewrite Hsame.
      destruct (decide (d ∈ dates ∧ String.substring 0 7 d ∈ months)) as [Hm|Hm].
      * rewrite decide_True; [done|]. split; [tauto|]. right. tauto.
      * rewrite decide_False; [done|]. intros [? [?|?]%elem_of_cons]; tauto.
Qed.

Lemma elem_of_unique_months (dates : list string) (ym : string) :
  ym ∈ unique_months dates ↔ ∃ d, d ∈ dates ∧ ym = String.substring 0 7 d.
Proof.
  unfold unique_months.
  assert (H : ∀ acc : gset string,
    ym ∈ foldl (λ um date, um ∪ {[String.substring 0 7 date]}) acc dates
    ↔ ym ∈ acc ∨ ∃ d, d ∈ dates ∧ ym = String.substring 0 7 d).
  { induction dates as [|date dates IH]; intros acc; simpl.
    - split; [by left|]. intros [?|(? & ?%elem_of_nil & _)]; done.
    - rewrite IH, elem_of_union, elem_of_singleton. split.
      + intros [[?|?]|(d & ? & ?)]; [by left| |].
        * right. exists date. split; [left|done].
        * right. exists d. split; [by right|done].
      + intros [?|(d & [->|?]%elem_of_cons & ?)]; [by left; left|by left; right|].
        right. by exists d. }
  rewrite H, elem_of_empty. tauto.
Qed.

Lemma unique_months_length (dates : list string) :
  Forall (λ d, (7 ≤ String.length d)%nat) dates →
  Forall (λ ym, String.length ym = 7%nat) (elements (unique_months dates)).
Proof.
  rewrite !Forall_forall. intros Hdates ym Hym.
  apply elem_of_elements, elem_of_unique_months in Hym as (d & Hd & ->).
  by apply length_substring_0, Hdates.
Qed.

(** What [get_icb_list_sizes] returns for dates that hold a month: under a
    requested date, what the response for its month stores into an empty
    dictionary, and nothing when the request for its month fails. *)
Lemma get_icb_list_sizes_lookup (http_get : remote)
    (org_ids : gset (option string)) (dates : list string) (d : string) :
  Forall (λ d, (7 ≤ String.length d)%nat) dates →
  months_result http_get org_ids dates ∅ (elements (unique_months dates)) !! d
  = if decide (d ∈ dates)
    then match http_get (org_details_url (String.substring 0 7 d)) with
         | inl _ => None
         | inr data => store_sizes org_ids data None
         end
    else None.
Proof.
  intros Hdates.
  rewrite months_result_lookup by (apply NoDup_elements || by apply unique_months_length).
  rewrite lookup_empty. destruct (decide (d ∈ dates)) as [Hd|Hd].
  - rewrite decide_True; [done|]. split; [done|].
    apply elem_of_elements, elem_of_unique_months. by exists d.
  - rewrite decide_False; [done|]. tauto.
Qed.

(** The mapping returned does not depend on the order in which the months
    are visited. *)
Lemma months_result_order (http_get : remote)
    (org_ids : gset (option string)) (dates : list string)
    (ls : gmap string (gmap (option string) Z)) (months months' : list string) :
  NoDup months → Forall (λ ym, String.length ym = 7%nat) months →
  months ≡ₚ months' →
  months_result http_get org_ids dates ls months
  = months_result http_get org_ids dates ls months'.
Proof.
  intros Hnd Hlen Hperm. apply map_eq. intros d.
  rewrite !months_result_lookup by (by rewrite <-?Hperm).
  destruct (decide (d ∈ dates ∧ String.substring 0 7 d ∈ months)) as [Hd|Hd].
  - rewrite decide_True; [done|]. by rewrite <-Hperm.
  - rewrite decide_False; [done|]. by rewrite <-Hperm.
Qed.

(** C6. The population collector requests one URL per distinct month of
    the requested dates and no other, the date of the query being the
    first day of the month, and it returns a mapping. When every requested
    date holds a month (seven characters or more), under every requested
    date an organization has the population that the response for the
    date's month gives for it, when the organization is among [org_ids],
    and none otherwise; so two requested dates of one month are bound
    alike. *)
Theorem get_icb_list_sizes_one_query_per_month
    (http_get : remote)
    (org_ids : gset (option string)) (dates : list string) (w : io) :
  ∃ months m,
    NoDup months
    ∧ (∀ ym, ym ∈ months ↔ ∃ d, d ∈ dates ∧ ym = String.substring 0 7 d)
    ∧ requested (get_icb_list_sizes http_get org_ids dates w).2
      = requested w
        ++ ((λ ym, "https://openprescribing.net/api/1.0/org_details/"
                   +:+ "?format=json&org_type=icb&keys=total_list_size&date="
                   +:+ ym +:+ "-01") <$> months)
    ∧ (get_icb_list_sizes http_get org_ids dates w).1 = inr m
    ∧ (Forall (λ d, (7 ≤ String.length d)%nat) dates →
       (∀ d data org, d ∈ dates →
          http_get (org_details_url (String.substring 0 7 d)) = inr data →
          population m d org = recorded_size org_ids data org)
       ∧ (∀ d1 d2, d1 ∈ dates → d2 ∈ dates →
            String.substring 0 7 d1 = String.substring 0 7 d2 → m !! d1 = m !! d2)).
Proof.
  unfold get_icb_list_sizes. rewrite months_loop_run. simpl.
  exists (elements (unique_months dates)). eexists.
  split; [apply NoDup_elements|].
  split; [intros ym; by rewrite elem_of_elements, elem_of_unique_months|].
  split; [done|]. split; [done|]. intros Hdates. split.
  - intros d data org Hd Hget. unfold population.
    rewrite get_icb_list_sizes_lookup, decide_True, Hget by done.
    rewrite store_sizes_population. by destruct (recorded_size org_ids data org).
  - intros d1 d2 Hd1 Hd2 Hym.
    by rewrite !get_icb_list_sizes_lookup, !decide_True, Hym by done.
Qed.

(** Requesting 2023-05-15 and 2023-05-20 issues the one query for
    2023-05-01 and binds both dates alike. *)
Lemma get_icb_list_sizes_one_query_per_month_witness :
  Forall (λ d, (7 ≤ String.length d)%nat) ["2023-05-15"; "2023-05-20"]
  ∧ requested (get_icb_list_sizes sample_remote {[Some "a"]} ["2023-05-15"; "2023-05-20"] io0).2
    = ["https://openprescribing.net/api/1.0/org_details/"
       +:+ "?format=json&org_type=icb&keys=total_list_size&date=2023-05-01"]
  ∧ ∃ m, (get_icb_list_sizes sample_remote {[Some "a"]} ["2023-05-15"; "2023-05-20"] io0).1
         = inr m
      ∧ m !! "2023-05-15" = m !! "2023-05-20".
Proof.
  assert (Hdates : Forall (λ d, (7 ≤ String.length d)%nat) ["2023-05-15"; "2023-05-20"]).
  { repeat constructor; simpl; lia. }
  split; [exact Hdates|].
  destruct (get_icb_list_sizes_one_query_per_month sample_remote {[Some "a"]}
              ["2023-05-15"; "2023-05-20"] io0)
    as (months & m & Hnd & Hmonths & Hreq & Hm & Hbound).
  destruct (Hbound Hdates) as [_ Hsame]. clear Hbound.
  assert (Hall : ∀ ym, ym ∈ months → ym = "2023-05").
  { intros ym Hym. destruct (proj1 (Hmonths ym) Hym) as (d & Hd & ->).
    apply elem_of_cons in Hd as [Hd|Hd]; [subst d; reflexivity|].
    apply elem_of_cons in Hd as [Hd|Hd]; [subst d; reflexivity|].
    apply elem_of_nil in Hd. destruct Hd. }
  assert (Hone : "2023-05" ∈ months).
  { apply Hmonths. exists "2023-05-15". split; [left|reflexivity]. }
  assert (months = ["2023-05"]) as ->.
  { destruct months as [|a [|b rest]].
    - apply elem_of_nil in Hone. destruct Hone.
    - f_equal. apply Hall. left.
    - exfalso. apply NoDup_cons in Hnd as [Hnd _]. apply Hnd.
      rewrite (Hall a) by left. rewrite <-(Hall b) by (right; left). left. }
  split; [rewrite Hreq; reflexivity|]. exists m. split; [exact Hm|].
  apply Hsame; [left|right; left|reflexivity].
Defined.

(** C7. A month whose query fails does not make the collector fail: the
    collector returns a mapping, prints the warning for that month on the
    diagnostic stream and nothing on standard output, and still requests
    the month of every requested date. When every requested date holds a
    month (seven characters or more), no requested date of the failed
    month is bound, and the dates of the months whose query succeeds are
    bound to what the responses give. *)
Theorem get_icb_list_sizes_failed_month
    (http_get : remote)
    (org_ids : gset (option string)) (dates : list string) (w : io)
    (year_month e : string) :
  (∃ d, d ∈ dates ∧ year_month = String.substring 0 7 d) →
  http_get (org_details_url year_month) = inl e →
  ∃ m, (get_icb_list_sizes http_get org_ids dates w).1 = inr m
    ∧ ("Warning: Failed to fetch list sizes for " +:+ year_month +:+ ": " +:+ e)
        ∈ stderr (get_icb_list_sizes http_get org_ids dates w).2
    ∧ stdout (get_icb_list_sizes http_get org_ids dates w).2 = stdout w
    ∧ (∀ d, d ∈ dates →
         org_details_url (String.substring 0 7 d)
           ∈ requested (get_icb_list_sizes http_get org_ids dates w).2)
    ∧ (Forall (λ d, (7 ≤ String.length d)%nat) dates →
       (∀ d, d ∈ dates → String.substring 0 7 d = year_month → m !! d = None)
       ∧ (∀ d data org, d ∈ dates →
            http_get (org_details_url (String.substring 0 7 d)) = inr data →
            population m d org = recorded_size org_ids data org)).
Proof.
  intros Hym Hfail. unfold get_icb_list_sizes. rewrite months_loop_run. simpl.
  eexists. split; [done|]. split; [|split; [done|split]].
  - apply elem_of_app. right. apply list_elem_of_omap. exists year_month. split.
    + by apply elem_of_elements, elem_of_unique_months.
    + unfold month_warning. by rewrite Hfail.
  - intros d Hd. apply elem_of_app. right. apply list_elem_of_fmap.
    exists (String.substring 0 7 d). split; [done|].
    apply elem_of_elements, elem_of_unique_months. by exists d.
  - intros Hdates. split.
    + intros d Hd <-. by rewrite get_icb_list_sizes_lookup, decide_True, Hfail by done.
    + intros d data org Hd Hget. unfold population.
      rewrite get_icb_list_sizes_lookup, decide_True, Hget by done.
      rewrite store_sizes_population. by destruct (recorded_size org_ids data org).
Qed.

(** The query for June 2023 fails: the date of June is not bound, the
    warning is printed, and the date of May has its population. *)
Lemma get_icb_list_sizes_failed_month_witness :
  Forall (λ d, (7 ≤ String.length d)%nat) ["2023-05-15"; "2023-06-01"]
  ∧ sample_remote (org_details_url "2023-06") = inl "503 Server Error"
  ∧ ∃ m, (get_icb_list_sizes sample_remote {[Some "a"]} ["2023-05-15"; "2023-06-01"] io0).1
         = inr m
      ∧ m !! "2023-06-01" = None
      ∧ ("Warning: Failed to fetch list sizes for " +:+ "2023-06" +:+ ": " +:+ "503 Server Error")
          ∈ stderr (get_icb_list_sizes sample_remote {[Some "a"]}
                      ["2023-05-15"; "2023-06-01"] io0).2
      ∧ population m "2023-05-15" (Some "a") = Some 100.
Proof.
  assert (Hdates : Forall (λ d, (7 ≤ String.length d)%nat) ["2023-05-15"; "2023-06-01"]).
  { repeat constructor; simpl; lia. }
  split; [exact Hdates|]. split; [reflexivity|].
  destruct (get_icb_list_sizes_failed_month sample_remote {[Some "a"]}
              ["2023-05-15"; "2023-06-01"] io0 "2023-06" "503 Server Error")
    as (m & Hm & Hwarn & _ & _ & Hbound).
  - exists "2023-06-01". split; [right; left|reflexivity].
  - reflexivity.
  - destruct (Hbound Hdates) as [Habsent Hpop]. clear Hbound.
    exists m. split; [exact Hm|]. split; [|split; [exact Hwarn|]].
    + apply Habsent; [right; left|reflexivity].
    + rewrite (Hpop "2023-05-15"
        [Item None None None (Some "a") None None None None (Some 100)] (Some "a")).
      * reflexivity.
      * left.
      * reflexivity.
Defined.


(** ** Runs of the calls: what each returns and what it does *)

Lemma prefix_substring_0 (n : nat) (s : string) :
  String.prefix (String.substring 0 n s) s = true.
Proof.
  revert s. induction n as [|n IH]; intros [|c s]; simpl; try done.
  destruct (Ascii.ascii_dec c c); [apply IH|done].
Qed.

Lemma code_exists_true (http_get : remote) (code : string) :
  code_exists http_get code = true ↔ catalog_has http_get code.
Proof. apply check_code_exists_true. Qed.

Lemma check_code_exists_answer (http_get : remote) (code : string) (w : io) :
  check_code_exists http_get code w
  = (inr (code_exists http_get code),
     IO (requested w ++ [check_code_url code]) (stdout w) (stderr w)).
Proof. apply check_code_exists_run. Qed.

Lemma extract_chemical_code_run (http_get : remote) (bnf_code : string) (w : io) :
  String.length bnf_code = 15%nat →
  extract_chemical_code http_get bnf_code w
  = (inr (resolved http_get bnf_code).1,
     IO (requested w ++ (resolved http_get bnf_code).2) (stdout w) (stderr w)).
Proof.
  intros Hlen. unfold extract_chemical_code. apply Nat.eqb_eq in Hlen as ->. simpl.
  unfold bind, resolved. rewrite check_code_exists_answer.
  destruct (code_exists http_get (String.substring 0 9 bnf_code)); [done|].
  rewrite check_code_exists_answer. simpl. rewrite <-app_assoc.
  by destruct (code_exists http_get (String.substring 0 7 bnf_code)).
Qed.

Lemma find_exact_name_run (code : string) (data : list item) (w : io) :
  find_exact_name code data w
  = (match list_find (λ it, get_id it = Some code) data with
     | Some (_, it) => inr (default "Unknown chemical" (get_name it))
     | None => inl (ValueError ("No exact match found for chemical code " +:+ code))
     end, w).
Proof.
  induction data as [|it data IH]; simpl; [done|].
  case_bool_decide as Hid.
  - by rewrite decide_True.
  - rewrite decide_False by done. rewrite IH.
    by destruct (list_find _ data) as [[??]|].
Qed.

Lemma get_chemical_name_run (http_get : remote) (code : string) (w : io) :
  get_chemical_name http_get code w
  = (looked_up http_get code,
     IO (requested w ++ [chemical_name_url code]) (stdout w) (stderr w)).
Proof.
  unfold get_chemical_name, looked_up, try_except, bind, requests_get_json.
  destruct (http_get (chemical_name_url code)) as [e|[|it data]]; [done..|].
  rewrite find_exact_name_run.
  by destruct (list_find _ (it :: data)) as [[??]|].
Qed.

Lemma get_spending_data_run (http_get : remote) (code : string) (w : io) :
  get_spending_data http_get code w
  = (collected http_get code,
     IO (requested w ++ [spending_url code]) (stdout w) (stderr w)).
Proof.
  unfold get_spending_data, collected, try_except, bind, requests_get_json, ret.
  by destruct (http_get (spending_url code)).
Qed.

(** ** Code resolver: the result and the requests *)

(** X1. For a code of 15 characters the resolver returns a prefix of the
    code, of 9 or of 7 characters. *)
Theorem extract_chemical_code_prefix (http_get : remote) (bnf_code : string) (w : io) :
  String.length bnf_code = 15%nat →
  ∃ r, (extract_chemical_code http_get bnf_code w).1 = inr r
    ∧ String.prefix r bnf_code = true
    ∧ (String.length r = 9%nat ∨ String.length r = 7%nat).
Proof.
  intros Hlen. rewrite extract_chemical_code_run by done. eexists. split; [done|].
  unfold resolved.
  destruct (code_exists http_get (String.substring 0 9 bnf_code)); simpl.
  { split; [apply prefix_substring_0|]. left. apply length_substring_0. lia. }
  destruct (code_exists http_get (String.substring 0 7 bnf_code)).
  - split; [apply prefix_substring_0|]. right. apply length_substring_0. lia.
  - split; [apply prefix_substring_0|]. left. apply length_substring_0. lia.
Qed.

Lemma extract_chemical_code_prefix_witness :
  String.length "0407010H0AAAMAM" = 15%nat
  ∧ ∃ r, (extract_chemical_code sample_remote "0407010H0AAAMAM" io0).1 = inr r
      ∧ String.prefix r "0407010H0AAAMAM" = true
      ∧ (String.length r = 9%nat ∨ String.length r = 7%nat).
Proof.
  split; [reflexivity|].
  exact (extract_chemical_code_prefix sample_remote "0407010H0AAAMAM" io0 eq_refl).
Defined.

(** X2. For a code of 15 characters the resolver prints nothing and
    requests the existence check of the 9-character prefix alone when the
    catalogue has it, and otherwise that check followed by the check of
    the 7-character prefix; it requests nothing else. *)
Theorem extract_chemical_code_requests (http_get : remote) (bnf_code : string) (w : io) :
  String.length bnf_code = 15%nat →
  stdout (extract_chemical_code http_get bnf_code w).2 = stdout w
  ∧ stderr (extract_chemical_code http_get bnf_code w).2 = stderr w
  ∧ (catalog_has http_get (String.substring 0 9 bnf_code) →
       requested (extract_chemical_code http_get bnf_code w).2
       = requested w ++ [check_code_url (String.substring 0 9 bnf_code)])
  ∧ (¬ catalog_has http_get (String.substring 0 9 bnf_code) →
       requested (extract_chemical_code http_get bnf_code w).2
       = requested w ++ [check_code_url (String.substring 0 9 bnf_code);
                         check_code_url (String.substring 0 7 bnf_code)]).
Proof.
  intros Hlen. rewrite extract_chemical_code_run by done. simpl.
  split; [done|]. split; [done|]. unfold resolved.
  destruct (code_exists http_get (String.substring 0 9 bnf_code)) eqn:H9; simpl.
  - split; [done|]. intros Hn. destruct Hn. by apply code_exists_true.
  - split; [|done]. intros H%code_exists_true. congruence.
Qed.

Lemma extract_chemical_code_requests_witness :
  String.length "0407010H0AAAMAM" = 15%nat
  ∧ requested (extract_chemical_code sample_remote "0407010H0AAAMAM" io0).2
    = [check_code_url "0407010H0"]
  ∧ requested (extract_chemical_code sample_remote "1234567890ABCDE" io0).2
    = [check_code_url "123456789"; check_code_url "1234567"].
Proof.
  split; [reflexivity|].
  destruct (extract_chemical_code_requests sample_remote "0407010H0AAAMAM" io0 eq_refl)
    as (_ & _ & Hfound & _).
  destruct (extract_chemical_code_requests sample_remote "1234567890ABCDE" io0 eq_refl)
    as (_ & _ & _ & Hmissing).
  split.
  - rewrite Hfound; [reflexivity|]. apply code_exists_true. reflexivity.
  - rewrite Hmissing; [reflexivity|]. intros H%code_exists_true. discriminate H.
Defined.

(** ** Catalogue look-up: the request and the messages *)

(** X3. The look-up prints nothing and requests one URL, whatever the
    answer. The [ValueError] it raises itself for an empty response, or
    for a response without the queried identifier, is caught by its own
    handler, so the message of the [Exception] starts with "Failed to
    parse API response: " and goes on with the text of that error. *)
Theorem get_chemical_name_effects (http_get : remote) (chemical_code : string) (w : io) :
  requested (get_chemical_name http_get chemical_code w).2
  = requested w ++ [chemical_name_url chemical_code]
  ∧ stdout (get_chemical_name http_get chemical_code w).2 = stdout w
  ∧ stderr (get_chemical_name http_get chemical_code w).2 = stderr w
  ∧ (http_get (chemical_name_url chemical_code) = inr [] →
       (get_chemical_name http_get chemical_code w).1
       = inl (Exception ("Failed to parse API response: "
                         +:+ ("No data found for chemical code " +:+ chemical_code))))
  ∧ (∀ it data,
       http_get (chemical_name_url chemical_code) = inr (it :: data) →
       (∀ x, x ∈ it :: data → get_id x ≠ Some chemical_code) →
       (get_chemical_name http_get chemical_code w).1
       = inl (Exception ("Failed to parse API response: "
                         +:+ ("No exact match found for chemical code " +:+ chemical_code)))).
Proof.
  rewrite get_chemical_name_run. simpl. do 3 (split; [done|]).
  unfold looked_up. split.
  - by intros ->.
  - intros it data -> Hnone.
    assert (list_find (λ x, get_id x = Some chemical_code) (it :: data) = None) as ->; [|done].
    apply list_find_None, Forall_forall. exact Hnone.
Qed.

Lemma get_chemical_name_effects_witness :
  (get_chemical_name remote_empty "0407010H0" io0).1
  = inl (Exception "Failed to parse API response: No data found for chemical code 0407010H0")
  ∧ requested (get_chemical_name remote_empty "0407010H0" io0).2
    = [chemical_name_url "0407010H0"].
Proof.
  destruct (get_chemical_name_effects remote_empty "0407010H0" io0)
    as (Hreq & _ & _ & Hempty & _).
  split; [rewrite Hempty; reflexivity|rewrite Hreq; reflexivity].
Defined.

(** ** Spending collector: what the mapping never holds *)

(** X4. In the mapping that the spending collector returns no date is the
    empty string and no date is bound to an empty list. *)
Theorem get_spending_data_no_empty (http_get : remote) (chemical_code : string) (w : io)
    (m : gmap string (list entry)) (d : string) (es : list entry) :
  (get_spending_data http_get chemical_code w).1 = inr m →
  m !! d = Some es →
  d ≠ "" ∧ es ≠ [].
Proof.
  rewrite get_spending_data_run. unfold collected. simpl.
  destruct (http_get (spending_url chemical_code)) as [e|data]; [done|].
  intros [= <-]. rewrite foldl_spending_step, lookup_empty.
  destruct (entry_of_item <$> filter _ data) as [|e0 group]; [done|].
  destruct (decide (d = "")); [done|]. intros [= <-]. done.
Qed.

Lemma get_spending_data_no_empty_witness :
  (get_spending_data sample_remote "0407010H0" io0).1
  = inr (foldl spending_step ∅ sample_spending)
  ∧ foldl spending_step ∅ sample_spending !! "2023-05-01"
    = Some [Entry (Some "a") (Some "A") 5 7 1.5%Q; Entry (Some "c") (Some "C") 0 0 0%Q]
  ∧ "2023-05-01" ≠ ""
  ∧ [Entry (Some "a") (Some "A") 5 7 1.5%Q; Entry (Some "c") (Some "C") 0 0 0%Q] ≠ [].
Proof.
  assert (H1 : (get_spending_data sample_remote "0407010H0" io0).1
               = inr (foldl spending_step ∅ sample_spending)) by reflexivity.
  assert (H2 : foldl spending_step ∅ sample_spending !! "2023-05-01"
               = Some [Entry (Some "a") (Some "A") 5 7 1.5%Q;
                       Entry (Some "c") (Some "C") 0 0 0%Q]) by reflexivity.
  split; [exact H1|]. split; [exact H2|].
  exact (get_spending_data_no_empty sample_remote "0407010H0" io0 _ _ _ H1 H2).
Defined.

(** ** Ranking engine: the dates of the result *)

Lemma omap_keyed_dates {B} (f : string → option (string * B)) (l : list string) :
  (∀ x y, f x = Some y → y.1 = x) →
  (omap f l).*1 = filter (λ x, is_Some (f x)) l.
Proof.
  intros Hf. induction l as [|x l IH]; [done|].
  csimpl. rewrite filter_cons. destruct (f x) as [y|] eqn:E.
  - rewrite decide_True by done. csimpl. by rewrite IH, (Hf _ _ E).
  - rewrite decide_False by (by intros [??]). done.
Qed.

Lemma filter_all {A} (P : A → Prop) `{∀ x, Decision (P x)} (l : list A) :
  Forall P l → filter P l = l.
Proof.
  induction 1 as [|x l Hx _ IH]; [done|].
  by rewrite filter_cons, decide_True, IH.
Qed.

Lemma filter_none {A} (P : A → Prop) `{∀ x, Decision (P x)} (l : list A) :
  Forall (λ x, ¬ P x) l → filter P l = [].
Proof.
  induction 1 as [|x l Hx _ IH]; [done|].
  by rewrite filter_cons, decide_False, IH.
Qed.

Lemma length_sorted_keys {V} (d : gmap string V) : length (sorted (keys d)) = size d.
Proof.
  unfold sorted, keys. rewrite merge_sort_Permutation.
  change (size (dom d : gset string) = size d). apply size_dom.
Qed.

Lemma is_Some_top_unweighted sd d :
  is_Some (top_unweighted sd d) ↔ default [] (sd !! d) ≠ [].
Proof.
  unfold top_unweighted. destruct (sd !! d) as [[|e es]|]; simpl.
  - split; [by intros [??]|done].
  - split; [done|by eexists].
  - split; [by intros [??]|done].
Qed.



(** X6. The unweighted ranking of what the spending collector returns has
    one row for each date of the mapping. *)
Theorem collected_dates_all_ranked (http_get : remote) (chemical_code : string) (w : io)
    (m : gmap string (list entry)) :
  (get_spending_data http_get chemical_code w).1 = inr m →
  (find_top_prescriber_by_month m).*1 = sorted (keys m)
  ∧ length (find_top_prescriber_by_month m) = size m.
Proof.
  rewrite get_spending_data_run. unfold collected. simpl.
  destruct (http_get (spending_url chemical_code)) as [e|data]; [done|].
  intros [= <-].
  assert (Hall : (find_top_prescriber_by_month (foldl spending_step ∅ data)).*1
                 = sorted (keys (foldl spending_step ∅ data))).
  { rewrite find_top_prescriber_by_month_omap.
    rewrite omap_keyed_dates by apply top_unweighted_date.
    apply filter_all, Forall_forall. intros d [es Hd]%elem_of_sorted_keys.
    apply is_Some_top_unweighted. rewrite Hd. simpl.
    rewrite foldl_spending_step, lookup_empty in Hd.
    destruct (entry_of_item <$> filter _ data) as [|e0 group]; [done|].
    destruct (decide (d = "")); [done|]. by injection Hd as <-. }
  split; [done|].
  by rewrite <-(length_fmap fst), Hall, length_sorted_keys.
Qed.

Lemma collected_dates_all_ranked_witness :
  (get_spending_data sample_remote "0407010H0" io0).1
  = inr (foldl spending_step ∅ sample_spending)
  ∧ (find_top_prescriber_by_month (foldl spending_step ∅ sample_spending)).*1
    = sorted (keys (foldl spending_step ∅ sample_spending))
  ∧ length (find_top_prescriber_by_month (foldl spending_step ∅ sample_spending))
    = size (foldl spending_step ∅ sample_spending).
Proof.
  assert (H1 : (get_spending_data sample_remote "0407010H0" io0).1
               = inr (foldl spending_step ∅ sample_spending)) by reflexivity.
  split; [exact H1|].
  exact (collected_dates_all_ranked sample_remote "0407010H0" io0 _ H1).
Defined.




(** ** Population collector: what the mapping depends on and holds *)

Lemma store_month_ext (org_ids : gset (option string)) (dates dates' : list string)
    (ym : string) (data : list item) (ls : gmap string (gmap (option string) Z)) :
  (∀ d, d ∈ dates ↔ d ∈ dates') →
  store_month org_ids dates ym data ls = store_month org_ids dates' ym data ls.
Proof.
  intros Hsame. apply map_eq. intros d. rewrite !store_month_lookup.
  destruct (decide (d ∈ dates ∧ String.prefix ym d = true)) as [[Hd Hp]|Hd].
  - rewrite decide_True; [done|]. split; [by apply Hsame|done].
  - rewrite decide_False; [done|]. intros [Hd' Hp]. apply Hd. split; [by apply Hsame|done].
Qed.

Lemma months_result_ext (http_get : remote) (org_ids : gset (option string))
    (dates dates' : list string) (ls : gmap string (gmap (option string) Z))
    (months : list string) :
  (∀ d, d ∈ dates ↔ d ∈ dates') →
  months_result http_get org_ids dates ls months
  = months_result http_get org_ids dates' ls months.
Proof.
  intros Hsame. unfold months_result. revert ls.
  induction months as [|ym months IH]; intros ls; cbn [foldl]; [done|].
  rewrite IH. destruct (http_get (org_details_url ym)); [done|].
  by rewrite (store_month_ext _ dates dates').
Qed.

(** X9. For requested dates that hold a month (seven characters or more),
    the mapping that the population collector builds depends on the dates
    only as a set, and not on the order in which the set of months is
    iterated: two runs of the loop over the months, each visiting once the
    distinct months of its list of dates, in any order, return the same
    mapping when the two lists have the same elements; it is the mapping
    of [get_icb_list_sizes]. *)
Theorem months_loop_dates_as_set (http_get : remote)
    (org_ids : gset (option string)) (dates dates' : list string)
    (months months' : list string) (w w' w'' : io) :
  (∀ d, d ∈ dates ↔ d ∈ dates') →
  (∀ d, d ∈ dates → (7 ≤ String.length d)%nat) →
  NoDup months → (∀ ym, ym ∈ months ↔ ym ∈ unique_months dates) →
  NoDup months' → (∀ ym, ym ∈ months' ↔ ym ∈ unique_months dates') →
  (months_loop http_get org_ids dates ∅ months w).1
  = (months_loop http_get org_ids dates' ∅ months' w').1
  ∧ (months_loop http_get org_ids dates ∅ months w).1
    = (get_icb_list_sizes http_get org_ids dates w'').1.
Proof.
  intros Hsame Hdates Hnd Hmonths Hnd' Hmonths'.
  assert (Hlen : Forall (λ ym, String.length ym = 7%nat) months).
  { apply Forall_forall. intros ym (d & Hd & ->)%Hmonths%elem_of_unique_months.
    by apply length_substring_0, Hdates. }
  assert (Hperm : months ≡ₚ months').
  { apply NoDup_Permutation; [done..|]. intros ym.
    rewrite Hmonths, Hmonths', !elem_of_unique_months.
    split; intros (d & Hd & ->); exists d; (split; [by apply Hsame|done]). }
  assert (Hcanon : months ≡ₚ elements (unique_months dates)).
  { apply NoDup_Permutation; [done|apply NoDup_elements|]. intros ym.
    by rewrite Hmonths, elem_of_elements. }
  unfold get_icb_list_sizes. rewrite !months_loop_run. simpl. split.
  - rewrite (months_result_ext _ _ dates dates') by done.
    by rewrite (months_result_order _ _ _ _ months months').
  - by rewrite (months_result_order _ _ _ _ months (elements (unique_months dates))).
Qed.

Lemma months_loop_dates_as_set_witness :
  (months_loop sample_remote {[Some "a"]} ["2023-05-15"; "2023-06-01"] ∅
     ["2023-05"; "2023-06"] io0).1
  = (months_loop sample_remote {[Some "a"]} ["2023-06-01"; "2023-05-15"; "2023-06-01"] ∅
       ["2023-06"; "2023-05"] io0).1
  ∧ (months_loop sample_remote {[Some "a"]} ["2023-05-15"; "2023-06-01"] ∅
       ["2023-05"; "2023-06"] io0).1
    = (get_icb_list_sizes sample_remote {[Some "a"]} ["2023-05-15"; "2023-06-01"] io0).1.
Proof.
  apply months_loop_dates_as_set.
  - intros d. split; intros Hd.
    + apply elem_of_cons in Hd as [Hd|Hd]; [subst d; right; left|].
      apply elem_of_cons in Hd as [Hd|Hd]; [subst d; left|].
      apply elem_of_nil in Hd. destruct Hd.
    + apply elem_of_cons in Hd as [Hd|Hd]; [subst d; right; left|].
      apply elem_of_cons in Hd as [Hd|Hd]; [subst d; left|].
      apply elem_of_cons in Hd as [Hd|Hd]; [subst d; right; left|].
      apply elem_of_nil in Hd. destruct Hd.
  - intros d Hd.
    apply elem_of_cons in Hd as [Hd|Hd]; [subst d; simpl; lia|].
    apply elem_of_cons in Hd as [Hd|Hd]; [subst d; simpl; lia|].
    apply elem_of_nil in Hd. destruct Hd.
  - apply NoDup_cons. split.
    + intros H. apply list_elem_of_singleton in H. discriminate H.
    + apply NoDup_singleton.
  - intros ym. rewrite elem_of_unique_months. split.
    + intros Hym.
      apply elem_of_cons in Hym as [Hym|Hym];
        [subst ym; exists "2023-05-15"; split; [left|reflexivity]|].
      apply elem_of_cons in Hym as [Hym|Hym];
        [subst ym; exists "2023-06-01"; split; [right; left|reflexivity]|].
      apply elem_of_nil in Hym. destruct Hym.
    + intros (d & Hd & Hym).
      apply elem_of_cons in Hd as [Hd|Hd]; [subst d ym; left|].
      apply elem_of_cons in Hd as [Hd|Hd]; [subst d ym; right; left|].
      apply elem_of_nil in Hd. destruct Hd.
  - apply NoDup_cons. split.
    + intros H. apply list_elem_of_singleton in H. discriminate H.
    + apply NoDup_singleton.
  - intros ym. rewrite elem_of_unique_months. split.
    + intros Hym.
      apply elem_of_cons in Hym as [Hym|Hym];
        [subst ym; exists "2023-06-01"; split; [left|reflexivity]|].
      apply elem_of_cons in Hym as [Hym|Hym];
        [subst ym; exists "2023-05-15"; split; [right; left|reflexivity]|].
      apply elem_of_nil in Hym. destruct Hym.
    + intros (d & Hd & Hym).
      apply elem_of_cons in Hd as [Hd|Hd]; [subst d ym; left|].
      apply elem_of_cons in Hd as [Hd|Hd]; [subst d ym; right; left|].
      apply elem_of_cons in Hd as [Hd|Hd]; [subst d ym; left|].
      apply elem_of_nil in Hd. destruct Hd.
Defined.

Lemma store_sizes_within (org_ids : gset (option string)) (data : list item)
    (sizes : option (gmap (option string) Z)) :
  sizes_within org_ids sizes → sizes_within org_ids (store_sizes org_ids data sizes).
Proof.
  unfold store_sizes. revert sizes.
  induction data as [|it data IH]; intros sizes Hsizes; cbn [foldl]; [done|].
  apply IH. case_bool_decide as Hin; [|done].
  intros m [= <-]. split; [apply insert_non_empty|].
  intros org. rewrite lookup_insert. case_decide as Horg; [by subst org|].
  destruct sizes as [m|]; simpl.
  - by apply Hsizes.
  - rewrite lookup_empty. by intros [??].
Qed.

Lemma months_result_within (http_get : remote) (org_ids : gset (option string))
    (dates : list string) (ls : gmap string (gmap (option string) Z))
    (months : list string) :
  (∀ d, (is_Some (ls !! d) → d ∈ dates) ∧ sizes_within org_ids (ls !! d)) →
  ∀ d, (is_Some (months_result http_get org_ids dates ls months !! d) → d ∈ dates)
       ∧ sizes_within org_ids (months_result http_get org_ids dates ls months !! d).
Proof.
  unfold months_result. revert ls.
  induction months as [|ym months IH]; intros ls Hls; cbn [foldl]; [done|].
  apply IH. destruct (http_get (org_details_url ym)) as [e|data]; [done|].
  intros d. rewrite store_month_lookup.
  destruct (decide (d ∈ dates ∧ String.prefix ym d = true)) as [[Hd _]|_]; [|apply Hls].
  split; [done|]. apply store_sizes_within, Hls.
Qed.

(** X10. The mapping that the population collector returns binds only
    requested dates, binds none of them to an empty dictionary, and
    records a population only for organizations of [org_ids]. *)
Theorem get_icb_list_sizes_within (http_get : remote)
    (org_ids : gset (option string)) (dates : list string) (w : io) :
  ∃ m, (get_icb_list_sizes http_get org_ids dates w).1 = inr m
    ∧ ∀ d sizes, m !! d = Some sizes →
        d ∈ dates ∧ sizes ≠ ∅ ∧ ∀ org, is_Some (sizes !! org) → org ∈ org_ids.
Proof.
  unfold get_icb_list_sizes. rewrite months_loop_run. simpl. eexists. split; [done|].
  intros d sizes Hd.
  destruct (months_result_within http_get org_ids dates ∅
              (elements (unique_months dates))) with (d := d) as [Hdate Hsizes].
  - intros d'. rewrite lookup_empty. split; [by intros [??]|done].
  - split; [apply Hdate; by rewrite Hd|]. by apply Hsizes.
Qed.

Lemma months_result_all_fail (http_get : remote) (org_ids : gset (option string))
    (dates : list string) (ls : gmap string (gmap (option string) Z))
    (months : list string) :
  Forall (λ ym, is_Some (month_warning http_get ym)) months →
  months_result http_get org_ids dates ls months = ls
  ∧ length (omap (month_warning http_get) months) = length months.
Proof.
  unfold months_result. induction 1 as [|ym months [line Hym] _ [IHm IHw]]; [done|].
  cbn [foldl]. csimpl. rewrite Hym. unfold month_warning in Hym.
  destruct (http_get (org_details_url ym)); [|done].
  split; [exact IHm|]. simpl. by rewrite IHw.
Qed.




(** ** The weighted ranking with the division of Python *)

(** The inner loop returns the rates of the entries with a usable
    population, in their order, each rate being what the division gives. *)
Lemma icb_rates_loop_inr ls d (es : list entry) (acc rates : list icb_rate) :
  icb_rates_loop ls d acc es = inr rates →
  ∃ new, rates = acc ++ new
    ∧ Forall2 (λ e r, float_rate ls d e = inr (rate r) ∧ rate_org_name r = org_name e)
        (filter (usable ls d) es) new.
Proof.
  revert acc. induction es as [|e es IH]; intros acc; cbn [icb_rates_loop].
  - intros [= <-]. exists []. rewrite app_nil_r. split; [done|constructor].
  - rewrite filter_cons. destruct (decide (usable ls d e)) as [Hu|Hu].
    + apply usable_list_size, Z.ltb_lt in Hu as ->.
      destruct (truediv (items e) (list_size_at ls d (org_id e))) as [err|q] eqn:Hq; [done|].
      intros (new & -> & Hnew)%IH. exists (IcbRate (org_name e) q :: new).
      split; [by rewrite <-app_assoc|]. by constructor.
    + rewrite usable_list_size in Hu. apply Z.ltb_nlt in Hu as ->. apply IH.
Qed.

(** The inner loop raises what the first failing division raises. *)
Lemma icb_rates_loop_inl ls d (es : list entry) (acc : list icb_rate) (err : exn) :
  icb_rates_loop ls d acc es = inl err →
  ∃ e, e ∈ filter (usable ls d) es ∧ float_rate ls d e = inl err.
Proof.
  revert acc. induction es as [|e es IH]; intros acc; cbn [icb_rates_loop]; [done|].
  rewrite filter_cons. destruct (decide (usable ls d e)) as [Hu|Hu].
  - apply usable_list_size, Z.ltb_lt in Hu as ->.
    destruct (truediv (items e) (list_size_at ls d (org_id e))) as [err'|q] eqn:Hq.
    + intros [= <-]. exists e. split; [left|done].
    + intros (e' & He' & Herr)%IH. exists e'. split; [by right|done].
  - rewrite usable_list_size in Hu. apply Z.ltb_nlt in Hu as ->. apply IH.
Qed.

Lemma weighted_loop_cons sd ls (acc : list (string * option string)) d dates :
  weighted_loop sd ls acc (d :: dates)
  = match top_weighted_float sd ls d with
    | inl e => inl e
    | inr None => weighted_loop sd ls acc dates
    | inr (Some row) => weighted_loop sd ls (acc ++ [row]) dates
    end.
Proof.
  cbn [weighted_loop]. unfold top_weighted_float.
  destruct (sd !! d) as [[|e es]|]; [done| |done].
  by destruct (icb_rates_loop ls d [] (e :: es)) as [err|[|first rest]].
Qed.

Lemma weighted_loop_inr sd ls (acc rows : list (string * option string)) dates :
  weighted_loop sd ls acc dates = inr rows →
  rows = acc ++ omap (float_row sd ls) dates
  ∧ ∀ d, d ∈ dates → ∃ row, top_weighted_float sd ls d = inr row.
Proof.
  revert acc. induction dates as [|d dates IH]; intros acc.
  - intros [= <-]. rewrite app_nil_r. split; [done|]. by intros d ?%elem_of_nil.
  - rewrite weighted_loop_cons. csimpl. unfold float_row at 1.
    destruct (top_weighted_float sd ls d) as [err|[row|]] eqn:Htop; [done| |].
    + intros [-> Hall]%IH. split; [by rewrite <-app_assoc|].
      intros d' [->|Hd']%elem_of_cons; [by eexists|by apply Hall].
    + intros [-> Hall]%IH. split; [done|].
      intros d' [->|Hd']%elem_of_cons; [by eexists|by apply Hall].
Qed.

Lemma weighted_loop_inl sd ls (acc : list (string * option string)) dates (err : exn) :
  weighted_loop sd ls acc dates = inl err →
  ∃ d, d ∈ dates ∧ top_weighted_float sd ls d = inl err.
Proof.
  revert acc. induction dates as [|d dates IH]; intros acc; [done|].
  rewrite weighted_loop_cons.
  destruct (top_weighted_float sd ls d) as [err'|[row|]] eqn:Htop.
  - intros [= <-]. exists d. split; [left|done].
  - intros (d' & Hd' & Herr)%IH. exists d'. split; [by right|done].
  - intros (d' & Hd' & Herr)%IH. exists d'. split; [by right|done].
Qed.

Lemma weighted_loop_all_none sd ls (acc : list (string * option string)) dates :
  (∀ d, d ∈ dates → top_weighted_float sd ls d = inr None) →
  weighted_loop sd ls acc dates = inr acc.
Proof.
  induction dates as [|d dates IH]; intros Hnone; [done|].
  rewrite weighted_loop_cons, Hnone by left. apply IH. intros d' Hd'. apply Hnone. by right.
Qed.

Lemma top_weighted_float_date sd ls d row :
  top_weighted_float sd ls d = inr (Some row) → row.1 = d.
Proof.
  unfold top_weighted_float. destruct (sd !! d) as [es|]; [|done].
  destruct (icb_rates_loop ls d [] es) as [err|[|first rest]]; naive_solver.
Qed.

Lemma float_row_date sd ls d row : float_row sd ls d = Some row → row.1 = d.
Proof.
  unfold float_row. destruct (top_weighted_float sd ls d) as [err|o] eqn:Htop; [done|].
  intros ->. by eapply top_weighted_float_date.
Qed.


(** The error of a failing division is [OverflowError] when the divisor is
    not zero. *)
Lemma truediv_inl (a b : Z) (err : exn) :
  b ≠ 0 → truediv a b = inl err →
  err = OverflowError "integer division result too large for a float".
Proof.
  intros Hb. unfold truediv. apply Z.eqb_neq in Hb as ->.
  destruct (SFdiv 53 1024 (float_of_int a) (float_of_int b)); congruence.
Qed.

(** When no population on record is strictly positive, no division is
    made and the ranking is empty. *)
Lemma weighted_float_no_population sd ls :
  (∀ d org p, population ls d org = Some p → p ≤ 0) →
  find_top_prescriber_by_month_weighted_float sd ls = inr [].
Proof.
  intros Hls. apply weighted_loop_all_none. intros d _.
  unfold top_weighted_float. destruct (sd !! d) as [es|]; [|done].
  assert (Hnone : filter (usable ls d) es = []).
  { apply filter_none, Forall_forall. intros e _ (p & Hp & Hpos). apply Hls in Hp. lia. }
  destruct (icb_rates_loop ls d [] es) as [err|rates] eqn:Hrates.
  - apply icb_rates_loop_inl in Hrates as (e & He & _). rewrite Hnone in He.
    by apply elem_of_nil in He.
  - apply icb_rates_loop_inr in Hrates as (new & -> & Hnew). rewrite Hnone in Hnew.
    by apply Forall2_nil_inv_l in Hnew as ->.
Qed.



(** With A: 10 items for 50 and B: 12 items for 40 the ranking picks B. Two
    entries whose quotients round to the same double tie, and the first is
    kept although the quotient of the second is the larger one. A quotient
    too large for a double ends the function with [OverflowError]. *)
Example weighted_float_runs :
  find_top_prescriber_by_month_weighted_float spending_rates list_sizes_rates
  = inr [("2023-04-01", Some "B")]
  ∧ find_top_prescriber_by_month_weighted_float spending_close list_sizes_close
    = inr [("2023-05-01", Some "X")]
  ∧ (134217730 # 134217729 < 134217729 # 134217728)%Q
  ∧ find_top_prescriber_by_month_weighted_float spending_huge list_sizes_one
    = inl (OverflowError "integer division result too large for a float").
Proof. repeat split; vm_compute; reflexivity. Qed.

Lemma filter_iff_in {A} (P Q : A → Prop) `{∀ x, Decision (P x)} `{∀ x, Decision (Q x)}
    (l : list A) :
  (∀ x, x ∈ l → P x ↔ Q x) → filter P l = filter Q l.
Proof.
  induction l as [|x l IH]; intros Hiff; [done|].
  rewrite !filter_cons, IH by (intros y Hy; apply Hiff; by right).
  destruct (decide (P x)) as [HP|HP], (decide (Q x)) as [HQ|HQ]; try done.
  - destruct HQ. apply Hiff; [left|done].
  - destruct HP. apply Hiff; [left|done].
Qed.

Lemma is_Some_float_row sd ls d row :
  top_weighted_float sd ls d = inr row →
  is_Some (float_row sd ls d) ↔ filter (usable ls d) (default [] (sd !! d)) ≠ [].
Proof.
  unfold float_row. intros Htop. rewrite Htop. unfold top_weighted_float in Htop.
  destruct (sd !! d) as [es|]; simpl.
  - destruct (icb_rates_loop ls d [] es) as [err|rates] eqn:Hrates; [done|].
    apply icb_rates_loop_inr in Hrates as (new & -> & Hnew). simpl in Htop.
    destruct new as [|first rest]; injection Htop as <-.
    + apply Forall2_nil_inv_r in Hnew as ->. split; [by intros [??]|done].
    + split; [|by eexists]. intros _ Hnone. rewrite Hnone in Hnew.
      by apply Forall2_nil_inv_l in Hnew.
  - injection Htop as <-. split; [by intros [??]|done].
Qed.

(** X21. When the weighted ranking returns, its dates are the sorted dates
    of the spending mapping that have at least one entry with a usable
    population, each once; they are strictly increasing, and each of them
    is a date of the unweighted ranking of the same spending mapping. *)
Theorem weighted_float_dates
    (sd : gmap string (list entry)) (ls : gmap string (gmap (option string) Z))
    (rows : list (string * option string)) :
  find_top_prescriber_by_month_weighted_float sd ls = inr rows →
  rows.*1 = filter (λ d, filter (usable ls d) (default [] (sd !! d)) ≠ []) (sorted (keys sd))
  ∧ StronglySorted str_lt rows.*1
  ∧ ∀ d, d ∈ rows.*1 → d ∈ (find_top_prescriber_by_month sd).*1.
Proof.
  intros [-> Hall]%weighted_loop_inr. simpl.
  assert (Hdates : (omap (float_row sd ls) (sorted (keys sd))).*1
            = filter (λ d, filter (usable ls d) (default [] (sd !! d)) ≠ [])
                (sorted (keys sd))).
  { rewrite omap_keyed_dates by apply float_row_date.
    apply filter_iff_in. intros d Hd. destruct (Hall d Hd) as [row Hrow].
    by eapply is_Some_float_row. }
  split; [exact Hdates|]. split.
  - apply omap_keyed_increasing; [apply float_row_date|apply sorted_keys_increasing].
  - intros d. rewrite Hdates. intros [Hsome Hd]%list_elem_of_filter.
    rewrite find_top_prescriber_by_month_omap.
    rewrite omap_keyed_dates by apply top_unweighted_date.
    apply list_elem_of_filter. split; [|done].
    apply is_Some_top_unweighted. intros Hnone. by rewrite Hnone in Hsome.
Qed.

Lemma weighted_float_dates_witness :
  find_top_prescriber_by_month_weighted_float spending_rates list_sizes_rates
  = inr [("2023-04-01", Some "B")]
  ∧ StronglySorted str_lt [("2023-04-01", Some "B")].*1.
Proof.
  assert (Hrun : find_top_prescriber_by_month_weighted_float spending_rates list_sizes_rates
                 = inr [("2023-04-01", Some "B")]) by (vm_compute; reflexivity).
  split; [exact Hrun|].
  exact (proj1 (proj2 (weighted_float_dates spending_rates list_sizes_rates
                         [("2023-04-01", Some "B")] Hrun))).
Defined.

(** X22. The weighted ranking raises nothing but the [OverflowError] of a
    division: when it raises, some entry of the spending mapping with a
    usable population has a quotient of items by population that is too
    large for a double. *)
Theorem weighted_float_raises
    (sd : gmap string (list entry)) (ls : gmap string (gmap (option string) Z)) (err : exn) :
  find_top_prescriber_by_month_weighted_float sd ls = inl err →
  err = OverflowError "integer division result too large for a float"
  ∧ ∃ d es e, sd !! d = Some es ∧ e ∈ es ∧ usable ls d e ∧ float_rate ls d e = inl err.
Proof.
  intros (d & _ & Htop)%weighted_loop_inl.
  unfold top_weighted_float in Htop. destruct (sd !! d) as [es|] eqn:Hd; [|done].
  destruct (icb_rates_loop ls d [] es) as [err'|[|first rest]] eqn:Hrates; [|done..].
  injection Htop as ->.
  apply icb_rates_loop_inl in Hrates as (e & [Hu He]%list_elem_of_filter & Herr).
  split.
  - apply usable_list_size in Hu. eapply truediv_inl; [|exact Herr]. lia.
  - by exists d, es, e.
Qed.

Lemma weighted_float_raises_witness :
  find_top_prescriber_by_month_weighted_float spending_huge list_sizes_one
  = inl (OverflowError "integer division result too large for a float")
  ∧ ∃ d es e, spending_huge !! d = Some es ∧ e ∈ es ∧ usable list_sizes_one d e
      ∧ float_rate list_sizes_one d e
        = inl (OverflowError "integer division result too large for a float").
Proof.
  assert (Hrun : find_top_prescriber_by_month_weighted_float spending_huge list_sizes_one
                 = inl (OverflowError "integer division result too large for a float"))
    by (vm_compute; reflexivity).
  split; [exact Hrun|].
  exact (proj2 (weighted_float_raises spending_huge list_sizes_one _ Hrun)).
Defined.

(** ** The command-line program *)

Lemma print_rows_run (rows : list (string * option string)) (w : io) :
  print_rows rows w
  = (inr tt, IO (requested w) (stdout w ++ (row_text <$> rows)) (stderr w)).
Proof.
  revert w. induction rows as [|[date icb_name] rows IH]; intros w.
  - simpl. unfold ret_P. rewrite app_nil_r. by destruct w.
  - cbn [print_rows]. unfold bind_P, print. rewrite IH. simpl.
    by rewrite <-app_assoc.
Qed.

Lemma main_run (http_get : remote) (bnf_code : string) (weighted : bool) (w : io) :
  String.length bnf_code = 15%nat →
  main http_get bnf_code weighted w = main_result http_get bnf_code weighted w.
Proof.
  intros Hlen. unfold main, try_except_Exception, main_body, main_result.
  unfold bind_P at 1. unfold call at 1. rewrite extract_chemical_code_run by done.
  unfold bind_P at 1. unfold call at 1. rewrite get_chemical_name_run. simpl.
  rewrite <-!app_assoc.
  destruct (looked_up http_get (resolved http_get bnf_code).1) as [e|name]; [done|].
  unfold bind_P at 1. unfold print at 1. simpl.
  unfold bind_P at 1. unfold print at 1. simpl.
  unfold bind_P at 1. unfold call at 1. rewrite get_spending_data_run. simpl.
  rewrite <-!app_assoc. simpl.
  destruct (collected http_get (resolved http_get bnf_code).1) as [e|sd]; [done|].
  unfold bind_P at 1.
  destruct (size sd =? 0)%nat.
  { unfold bind_P, print, sys_exit. simpl. by rewrite <-!app_assoc. }
  unfold ret_P at 1. unfold bind_P at 1.
  destruct weighted.
  - unfold bind_P at 1. unfold call at 1. unfold get_icb_list_sizes.
    rewrite months_loop_run. simpl. unfold eval.
    destruct (find_top_prescriber_by_month_weighted_float sd _) as [e|rows].
    + unfold bind_P, call, print_stderr, sys_exit. simpl. by rewrite <-!app_assoc.
    + rewrite print_rows_run. simpl. by rewrite <-!app_assoc.
  - unfold ret_P. rewrite print_rows_run. simpl. by rewrite <-!app_assoc.
Qed.

Lemma collected_no_empty (http_get : remote) (code : string)
    (m : gmap string (list entry)) (d : string) (es : list entry) :
  collected http_get code = inr m → m !! d = Some es → d ≠ "" ∧ es ≠ [].
Proof.
  unfold collected. destruct (http_get (spending_url code)) as [e|data]; [done|].
  intros [= <-]. rewrite foldl_spending_step, lookup_empty.
  destruct (entry_of_item <$> filter _ data) as [|e0 group]; [done|].
  destruct (decide (d = "")); [done|]. intros [= <-]. done.
Qed.

Lemma find_top_prescriber_by_month_length (sd : gmap string (list entry)) :
  (∀ d es, sd !! d = Some es → es ≠ []) →
  length (find_top_prescriber_by_month sd) = size sd.
Proof.
  intros Hsd. rewrite <-(length_fmap fst), find_top_prescriber_by_month_omap.
  rewrite omap_keyed_dates by apply top_unweighted_date.
  rewrite filter_all; [apply length_sorted_keys|].
  apply Forall_forall. intros d [es Hd]%elem_of_sorted_keys.
  apply is_Some_top_unweighted. rewrite Hd. simpl. by eapply Hsd.
Qed.

Lemma month_warnings_are_warnings (http_get : remote) (months : list string) :
  Forall is_warning (omap (month_warning http_get) months).
Proof.
  apply Forall_forall. intros line (ym & _ & Hline)%list_elem_of_omap.
  unfold month_warning in Hline. destruct (http_get (org_details_url ym)) as [e|]; [|done].
  injection Hline as <-. by exists ym, e.
Qed.

(** X12. The organizations that [main] passes to the population collector
    are exactly those of the entries of the spending mapping. *)
Theorem collect_org_ids_spec (sd : gmap string (list entry)) (org : option string) :
  org ∈ collect_org_ids sd ↔ ∃ d es e, sd !! d = Some es ∧ e ∈ es ∧ org_id e = org.
Proof.
  assert (Hinner : ∀ (es : list entry) (acc : gset (option string)),
    org ∈ foldl (λ org_ids item, org_ids ∪ {[org_id item]}) acc es
    ↔ org ∈ acc ∨ ∃ e, e ∈ es ∧ org_id e = org).
  { induction es as [|e es IH]; intros acc; cbn [foldl].
    - split; [by left|]. intros [?|(? & ?%elem_of_nil & _)]; done.
    - rewrite IH, elem_of_union, elem_of_singleton. split.
      + intros [[?|?]|(e' & ? & ?)]; [by left| |].
        * right. exists e. split; [left|done].
        * right. exists e'. split; [by right|done].
      + intros [?|(e' & [->|?]%elem_of_cons & ?)]; [by left; left|by left; right|].
        right. by exists e'. }
  assert (Houter : ∀ (ll : list (list entry)) (acc : gset (option string)),
    org ∈ foldl (λ org_ids date_data,
                   foldl (λ org_ids item, org_ids ∪ {[org_id item]}) org_ids date_data)
                acc ll
    ↔ org ∈ acc ∨ ∃ es e, es ∈ ll ∧ e ∈ es ∧ org_id e = org).
  { induction ll as [|es ll IH]; intros acc; cbn [foldl].
    - split; [by left|]. intros [?|(? & ? & ?%elem_of_nil & _)]; done.
    - rewrite IH, Hinner. split.
      + intros [[?|(e & ? & ?)]|(es' & e & ? & ? & ?)]; [by left| |].
        * right. exists es, e. split; [left|done].
        * right. exists es', e. split; [by right|done].
      + intros [?|(es' & e & [->|?]%elem_of_cons & ? & ?)]; [by left; left| |].
        * left. right. by exists e.
        * right. by exists es', e. }
  unfold collect_org_ids, values. rewrite Houter, elem_of_empty. split.
  - intros [[]|(es & e & Hes & He & Horg)].
    apply list_elem_of_fmap in Hes as ([d es'] & -> & Hd%elem_of_map_to_list).
    by exists d, es', e.
  - intros (d & es & e & Hd & He & Horg). right. exists es, e. split; [|done].
    apply list_elem_of_fmap. exists (d, es). split; [done|]. by apply elem_of_map_to_list.
Qed.

(** X13. For a code whose length is not 15, the program ends with status 1
    after printing "Error: " and the message of the resolver on the
    diagnostic stream; it prints nothing on standard output and requests
    nothing. *)
Theorem main_invalid_length (http_get : remote) (bnf_code : string) (weighted : bool)
    (w : io) :
  String.length bnf_code ≠ 15%nat →
  run_main http_get bnf_code weighted w
  = (1, IO (requested w) (stdout w)
           (stderr w ++ ["Error: " +:+ ("BNF code must be exactly 15 characters, got "
                                        +:+ pretty (String.length bnf_code))])).
Proof.
  intros Hlen. unfold run_main, main, try_except_Exception, main_body.
  unfold bind_P at 1. unfold call at 1. unfold extract_chemical_code.
  by apply Nat.eqb_neq in Hlen as ->.
Qed.

Lemma main_invalid_length_witness :
  run_main sample_remote "0407010H0" true io0
  = (1, IO [] [] ["Error: BNF code must be exactly 15 characters, got 9"]).
Proof.
  rewrite (main_invalid_length sample_remote "0407010H0" true io0); [reflexivity|].
  simpl. lia.
Defined.

(** X14. Once the arguments are parsed, every run of the program ends with
    status 0 or 1, and no exception escapes it. On the diagnostic stream
    it prints the warnings of the population collector, if any, and then,
    exactly when the status is 1, one last line that starts with
    "Error: ". *)
Theorem main_exit_status (http_get : remote) (bnf_code : string) (weighted : bool) (w : io) :
  (∀ e w', main http_get bnf_code weighted w ≠ (inl (Raised e), w'))
  ∧ ∃ warnings, Forall is_warning warnings
      ∧ (((run_main http_get bnf_code weighted w).1 = 0
          ∧ stderr (run_main http_get bnf_code weighted w).2 = stderr w ++ warnings)
         ∨ ((run_main http_get bnf_code weighted w).1 = 1
            ∧ ∃ msg, stderr (run_main http_get bnf_code weighted w).2
                     = stderr w ++ warnings ++ ["Error: " +:+ msg])).
Proof.
  destruct (decide (String.length bnf_code = 15%nat)) as [Hlen|Hlen].
  - unfold run_main. rewrite main_run by done. unfold main_result.
    destruct (looked_up http_get _) as [e|name].
    { split; [done|]. exists []. split; [constructor|]. right. split; [done|]. by eexists. }
    destruct (collected http_get _) as [e|sd].
    { split; [done|]. exists []. split; [constructor|]. right. split; [done|]. by eexists. }
    destruct (size sd =? 0)%nat.
    { split; [done|]. exists []. split; [constructor|]. left. by rewrite app_nil_r. }
    destruct weighted.
    + destruct (find_top_prescriber_by_month_weighted_float sd _) as [e|rows].
      * split; [done|]. eexists. split; [apply month_warnings_are_warnings|].
        right. split; [done|]. by eexists.
      * split; [done|]. eexists. split; [apply month_warnings_are_warnings|].
        by left.
    + split; [done|]. exists []. split; [constructor|]. left. by rewrite app_nil_r.
  - assert (Hmain : main http_get bnf_code weighted w
              = (inl (SystemExit 1),
                 IO (requested w) (stdout w)
                    (stderr w ++ ["Error: " +:+ ("BNF code must be exactly 15 characters, got "
                                                 +:+ pretty (String.length bnf_code))]))).
    { unfold main, try_except_Exception, main_body.
      unfold bind_P at 1. unfold call at 1. unfold extract_chemical_code.
      by apply Nat.eqb_neq in Hlen as ->. }
    unfold run_main. rewrite Hmain. split; [done|].
    exists []. split; [constructor|]. right. split; [done|]. by eexists.
Qed.

(** What the hypotheses on the three calls say about the answers. *)
Lemma extract_chemical_code_resolved (http_get : remote) (bnf_code code : string) (w : io) :
  String.length bnf_code = 15%nat →
  (extract_chemical_code http_get bnf_code w).1 = inr code →
  (resolved http_get bnf_code).1 = code
  ∧ requested (extract_chemical_code http_get bnf_code w).2
    = requested w ++ (resolved http_get bnf_code).2.
Proof.
  intros Hlen. rewrite extract_chemical_code_run by done. simpl. by intros [= ->].
Qed.

(** X15. When the name look-up fails, the program ends with status 1 after
    the line "Error: " and the message of the failure on the diagnostic
    stream; it has printed nothing on standard output and has not
    requested the spending data. *)
Theorem main_lookup_failure (http_get : remote) (bnf_code : string) (weighted : bool)
    (w : io) (code : string) (e : exn) :
  String.length bnf_code = 15%nat →
  (extract_chemical_code http_get bnf_code w).1 = inr code →
  (get_chemical_name http_get code w).1 = inl e →
  run_main http_get bnf_code weighted w
  = (1, IO (requested (extract_chemical_code http_get bnf_code w).2
            ++ [chemical_name_url code])
           (stdout w) (stderr w ++ ["Error: " +:+ str_of_exn e])).
Proof.
  intros Hlen Hcode Hname.
  apply extract_chemical_code_resolved in Hcode as [Hcode ->]; [|done].
  rewrite get_chemical_name_run in Hname. simpl in Hname.
  unfold run_main. rewrite main_run by done. unfold main_result.
  rewrite Hcode, Hname. by rewrite <-app_assoc.
Qed.

Lemma main_lookup_failure_witness :
  run_main sample_remote "1234567890ABCDE" false io0
  = (1, IO [check_code_url "123456789"; check_code_url "1234567";
            chemical_name_url "123456789"]
           [] ["Error: Failed to fetch data from API: 503 Server Error"]).
Proof.
  rewrite (main_lookup_failure sample_remote "1234567890ABCDE" false io0 "123456789"
             (Exception "Failed to fetch data from API: 503 Server Error"));
    reflexivity.
Defined.

(** X16. When the spending request fails, the program has already printed
    the name and an empty line on standard output; it ends with status 1
    after the line "Error: " and the message of the failure on the
    diagnostic stream. *)
Theorem main_spending_failure (http_get : remote) (bnf_code : string) (weighted : bool)
    (w : io) (code name : string) (e : exn) :
  String.length bnf_code = 15%nat →
  (extract_chemical_code http_get bnf_code w).1 = inr code →
  (get_chemical_name http_get code w).1 = inr name →
  (get_spending_data http_get code w).1 = inl e →
  run_main http_get bnf_code weighted w
  = (1, IO (requested (extract_chemical_code http_get bnf_code w).2
            ++ [chemical_name_url code; spending_url code])
           (stdout w ++ [name; ""]) (stderr w ++ ["Error: " +:+ str_of_exn e])).
Proof.
  intros Hlen Hcode Hname Hsd.
  apply extract_chemical_code_resolved in Hcode as [Hcode ->]; [|done].
  rewrite get_chemical_name_run in Hname. rewrite get_spending_data_run in Hsd.
  simpl in Hname, Hsd.
  unfold run_main. rewrite main_run by done. unfold main_result.
  rewrite Hcode, Hname, Hsd. by rewrite <-!app_assoc.
Qed.

Lemma main_spending_failure_witness :
  run_main sample_remote_spending_down "0407010H0AAAMAM" true io0
  = (1, IO [check_code_url "0407010H0"; chemical_name_url "0407010H0";
            spending_url "0407010H0"]
           ["Paracetamol"; ""]
           ["Error: Failed to fetch spending data from API: 504 Gateway Timeout"]).
Proof.
  rewrite (main_spending_failure sample_remote_spending_down "0407010H0AAAMAM" true io0
             "0407010H0" "Paracetamol"
             (Exception "Failed to fetch spending data from API: 504 Gateway Timeout"));
    reflexivity.
Defined.

(** X17. When the spending collector returns an empty mapping, the program
    prints the name, an empty line and "No spending data found for this
    chemical." on standard output, nothing on the diagnostic stream, and
    ends with status 0; with or without the weighting it requests no list
    size. *)
Theorem main_no_spending_data (http_get : remote) (bnf_code : string) (weighted : bool)
    (w : io) (code name : string) :
  String.length bnf_code = 15%nat →
  (extract_chemical_code http_get bnf_code w).1 = inr code →
  (get_chemical_name http_get code w).1 = inr name →
  (get_spending_data http_get code w).1 = inr ∅ →
  run_main http_get bnf_code weighted w
  = (0, IO (requested (extract_chemical_code http_get bnf_code w).2
            ++ [chemical_name_url code; spending_url code])
           (stdout w ++ [name; ""; "No spending data found for this chemical."])
           (stderr w)).
Proof.
  intros Hlen Hcode Hname Hsd.
  apply extract_chemical_code_resolved in Hcode as [Hcode ->]; [|done].
  rewrite get_chemical_name_run in Hname. rewrite get_spending_data_run in Hsd.
  simpl in Hname, Hsd.
  unfold run_main. rewrite main_run by done. unfold main_result.
  rewrite Hcode, Hname, Hsd. rewrite map_size_empty. simpl. by rewrite <-!app_assoc.
Qed.

Lemma main_no_spending_data_witness :
  run_main sample_remote_no_spending "0407010H0AAAMAM" true io0
  = (0, IO [check_code_url "0407010H0"; chemical_name_url "0407010H0";
            spending_url "0407010H0"]
           ["Paracetamol"; ""; "No spending data found for this chemical."] []).
Proof.
  rewrite (main_no_spending_data sample_remote_no_spending "0407010H0AAAMAM" true io0
             "0407010H0" "Paracetamol"); reflexivity.
Defined.

(** X18. Without the weighting, when the three calls succeed and the
    spending mapping is not empty, the program prints the name, an empty
    line and one row "date name" per date of the mapping, in the order of
    the ranking; it prints nothing on the diagnostic stream, requests no
    list size and ends with status 0. *)
Theorem main_unweighted_rows (http_get : remote) (bnf_code : string) (w : io)
    (code name : string) (sd : gmap string (list entry)) :
  String.length bnf_code = 15%nat →
  (extract_chemical_code http_get bnf_code w).1 = inr code →
  (get_chemical_name http_get code w).1 = inr name →
  (get_spending_data http_get code w).1 = inr sd →
  sd ≠ ∅ →
  run_main http_get bnf_code false w
  = (0, IO (requested (extract_chemical_code http_get bnf_code w).2
            ++ [chemical_name_url code; spending_url code])
           (stdout w ++ [name; ""]
            ++ ((λ row, row.1 +:+ " " +:+ default "None" row.2)
                  <$> find_top_prescriber_by_month sd))
           (stderr w))
  ∧ length (find_top_prescriber_by_month sd) = size sd.
Proof.
  intros Hlen Hcode Hname Hsd Hne.
  apply extract_chemical_code_resolved in Hcode as [Hcode ->]; [|done].
  rewrite get_chemical_name_run in Hname. rewrite get_spending_data_run in Hsd.
  simpl in Hname, Hsd. split.
  - unfold run_main. rewrite main_run by done. unfold main_result.
    rewrite Hcode, Hname, Hsd.
    apply map_size_non_empty_iff, Nat.eqb_neq in Hne as ->. simpl.
    by rewrite <-!app_assoc.
  - apply find_top_prescriber_by_month_length. intros d es Hd.
    by destruct (collected_no_empty http_get code sd d es Hsd Hd).
Qed.

Lemma main_unweighted_rows_witness :
  run_main sample_remote "0407010H0AAAMAM" false io0
  = (0, IO [check_code_url "0407010H0"; chemical_name_url "0407010H0";
            spending_url "0407010H0"]
           ["Paracetamol"; ""; "2023-05-01 A"] []).
Proof.
  destruct (main_unweighted_rows sample_remote "0407010H0AAAMAM" io0
              "0407010H0" "Paracetamol" (foldl spending_step ∅ sample_spending))
    as [Hrun _]; [reflexivity..| |].
  - intros Hempty.
    assert (H : foldl spending_step ∅ sample_spending !! "2023-05-01" = None)
      by (rewrite Hempty; apply lookup_empty).
    discriminate H.
  - rewrite Hrun. reflexivity.
Defined.

(** X19. With the weighting, when the three calls succeed, the spending
    mapping is not empty and the list-size query of every month fails,
    the program prints the name and an empty line and no row; it prints
    one warning per distinct month on the diagnostic stream and ends with
    status 0. *)
Theorem main_weighted_sizes_down (http_get : remote) (bnf_code : string) (w : io)
    (code name : string) (sd : gmap string (list entry)) :
  String.length bnf_code = 15%nat →
  (extract_chemical_code http_get bnf_code w).1 = inr code →
  (get_chemical_name http_get code w).1 = inr name →
  (get_spending_data http_get code w).1 = inr sd →
  sd ≠ ∅ →
  (∀ d, is_Some (sd !! d) →
     ∃ e, http_get (org_details_url (String.substring 0 7 d)) = inl e) →
  (run_main http_get bnf_code true w).1 = 0
  ∧ stdout (run_main http_get bnf_code true w).2 = stdout w ++ [name; ""]
  ∧ ∃ warnings,
      stderr (run_main http_get bnf_code true w).2 = stderr w ++ warnings
      ∧ Forall is_warning warnings
      ∧ length warnings = size (unique_months (keys sd)).
Proof.
  intros Hlen Hcode Hname Hsd Hne Hdown.
  apply extract_chemical_code_resolved in Hcode as [Hcode _]; [|done].
  rewrite get_chemical_name_run in Hname. rewrite get_spending_data_run in Hsd.
  simpl in Hname, Hsd.
  unfold run_main. rewrite main_run by done. unfold main_result.
  rewrite Hcode, Hname, Hsd.
  apply map_size_non_empty_iff, Nat.eqb_neq in Hne as ->. simpl.
  destruct (months_result_all_fail http_get (collect_org_ids sd) (keys sd) ∅
              (elements (unique_months (keys sd)))) as [-> Hwarn].
  { apply Forall_forall. intros ym (d & Hd & ->)%elem_of_elements%elem_of_unique_months.
    unfold keys in Hd. apply elem_of_elements, elem_of_dom in Hd.
    destruct (Hdown d Hd) as [e He]. unfold month_warning. rewrite He. by eexists. }
  rewrite weighted_float_no_population.
  - split; [done|]. split; [by rewrite app_nil_r|].
    eexists. split; [done|]. split; [apply month_warnings_are_warnings|exact Hwarn].
  - intros d org p Hp. unfold population in Hp. by rewrite lookup_empty in Hp.
Qed.

Lemma main_weighted_sizes_down_witness :
  (run_main sample_remote_sizes_down "0407010H0AAAMAM" true io0).1 = 0
  ∧ stdout (run_main sample_remote_sizes_down "0407010H0AAAMAM" true io0).2
    = ["Paracetamol"; ""]
  ∧ ∃ warnings,
      stderr (run_main sample_remote_sizes_down "0407010H0AAAMAM" true io0).2 = warnings
      ∧ length warnings = 1%nat.
Proof.
  destruct (main_weighted_sizes_down sample_remote_sizes_down "0407010H0AAAMAM" io0
              "0407010H0" "Paracetamol" (foldl spending_step ∅ sample_spending))
    as (Hstatus & Hout & warnings & Herr & _ & Hlen); [reflexivity..| | |].
  - intros Hempty.
    assert (H : foldl spending_step ∅ sample_spending !! "2023-05-01" = None)
      by (rewrite Hempty; apply lookup_empty).
    discriminate H.
  - intros d Hd. exists "504 Gateway Timeout".
    destruct (decide (d = "2023-05-01")) as [->|Hne]; [reflexivity|].
    exfalso. destruct Hd as [es Hd].
    rewrite foldl_spending_step, lookup_empty in Hd.
    unfold sample_spending in Hd. rewrite !filter_cons in Hd. simpl in Hd.
    rewrite !decide_False in Hd by (intros [=]; congruence). discriminate Hd.
  - split; [exact Hstatus|]. split; [exact Hout|].
    exists warnings. split; [exact Herr|]. rewrite Hlen. reflexivity.
Defined.

(** X20. The loop over the months returns the same mapping in whatever
    order it visits distinct months of seven characters, so the order in
    which Python iterates the set of months does not show in the result. *)
Theorem months_loop_any_order (http_get : remote)
    (org_ids : gset (option string)) (dates : list string)
    (ls : gmap string (gmap (option string) Z)) (months months' : list string) (w : io) :
  NoDup months → Forall (λ ym, String.length ym = 7%nat) months →
  months ≡ₚ months' →
  (months_loop http_get org_ids dates ls months w).1
  = (months_loop http_get org_ids dates ls months' w).1.
Proof.
  intros Hnd Hlen Hperm. rewrite !months_loop_run. simpl.
  by rewrite (months_result_order _ _ _ _ months months').
Qed.

Lemma months_loop_any_order_witness :
  (months_loop sample_remote {[Some "a"]} ["2023-05-15"; "2023-06-01"] ∅
     ["2023-05"; "2023-06"] io0).1
  = (months_loop sample_remote {[Some "a"]} ["2023-05-15"; "2023-06-01"] ∅
       ["2023-06"; "2023-05"] io0).1.
Proof.
  apply months_loop_any_order.
  - apply NoDup_cons. split.
    + intros H. apply list_elem_of_singleton in H. discriminate H.
    + apply NoDup_singleton.
  - repeat constructor.
  - apply Permutation_swap.
Defined.

(** The only exception of the weighted ranking is the [OverflowError] of a
    division. *)
Lemma weighted_float_error_text sd ls (err : exn) :
  find_top_prescriber_by_month_weighted_float sd ls = inl err →
  err = OverflowError "integer division result too large for a float".
Proof.
  intros (d & _ & Htop)%weighted_loop_inl.
  unfold top_weighted_float in Htop. destruct (sd !! d) as [es|]; [|done].
  destruct (icb_rates_loop ls d [] es) as [err'|[|first rest]] eqn:Hrates; [|done..].
  injection Htop as ->.
  apply icb_rates_loop_inl in Hrates as (e & [Hu _]%list_elem_of_filter & Herr).
  apply usable_list_size in Hu. eapply truediv_inl; [|exact Herr]. lia.
Qed.

(** X23. With the weighting, when the three calls succeed, the spending
    mapping is not empty and the weighted ranking raises on the list sizes
    collected, the program prints the name and an empty line and no row;
    on the diagnostic stream it prints the warnings of the population
    collector and then the line "Error: integer division result too large
    for a float", and it ends with status 1. *)
Theorem main_weighted_overflow (http_get : remote) (bnf_code : string) (w : io)
    (code name : string) (sd : gmap string (list entry))
    (ls : gmap string (gmap (option string) Z)) (err : exn) :
  String.length bnf_code = 15%nat →
  (extract_chemical_code http_get bnf_code w).1 = inr code →
  (get_chemical_name http_get code w).1 = inr name →
  (get_spending_data http_get code w).1 = inr sd →
  sd ≠ ∅ →
  (get_icb_list_sizes http_get (collect_org_ids sd) (keys sd) w).1 = inr ls →
  find_top_prescriber_by_month_weighted_float sd ls = inl err →
  (run_main http_get bnf_code true w).1 = 1
  ∧ stdout (run_main http_get bnf_code true w).2 = stdout w ++ [name; ""]
  ∧ ∃ warnings,
      Forall is_warning warnings
      ∧ stderr (run_main http_get bnf_code true w).2
        = stderr w ++ warnings
          ++ ["Error: integer division result too large for a float"].
Proof.
  intros Hlen Hcode Hname Hsd Hne Hls Herr.
  apply extract_chemical_code_resolved in Hcode as [Hcode _]; [|done].
  rewrite get_chemical_name_run in Hname. rewrite get_spending_data_run in Hsd.
  unfold get_icb_list_sizes in Hls. rewrite months_loop_run in Hls.
  simpl in Hname, Hsd, Hls. injection Hls as Hls.
  unfold run_main. rewrite main_run by done. unfold main_result.
  rewrite Hcode, Hname, Hsd.
  apply map_size_non_empty_iff, Nat.eqb_neq in Hne as ->. simpl.
  rewrite Hls, Herr. apply weighted_float_error_text in Herr as ->. simpl.
  split; [done|]. split; [done|].
  eexists. split; [apply month_warnings_are_warnings|done].
Qed.

Lemma main_weighted_overflow_witness :
  run_main sample_remote_huge "0407010H0AAAMAM" true io0
  = (1, IO [check_code_url "0407010H0"; chemical_name_url "0407010H0";
            spending_url "0407010H0"; org_details_url "2023-05"; org_details_url "2023-06"]
           ["Paracetamol"; ""]
           ["Warning: Failed to fetch list sizes for 2023-06: 503 Server Error";
            "Error: integer division result too large for a float"])
  ∧ (run_main sample_remote_huge "0407010H0AAAMAM" true io0).1 = 1.
Proof.
  split; [vm_compute; reflexivity|].
  destruct (main_weighted_overflow sample_remote_huge "0407010H0AAAMAM" io0
              "0407010H0" "Paracetamol"
              (foldl spending_step ∅
                 [Item None None (Some "2023-05-01") (Some "a") (Some "A") (Some (2 ^ 1040))
                    None None None;
                  Item None None (Some "2023-06-01") (Some "a") (Some "A") (Some 3)
                    None None None])
              {[ "2023-05-01" := {[ Some "a" := 100 ]} ]}
              (OverflowError "integer division result too large for a float"))
    as (Hstatus & _); [reflexivity| | | | | | |exact Hstatus].
  - vm_compute. reflexivity.
  - vm_compute. reflexivity.
  - vm_compute. reflexivity.
  - intros Hempty.
    assert (H : foldl spending_step ∅
                  [Item None None (Some "2023-05-01") (Some "a") (Some "A") (Some (2 ^ 1040))
                     None None None;
                   Item None None (Some "2023-06-01") (Some "a") (Some "A") (Some 3)
                     None None None] !! "2023-05-01" = None)
      by (rewrite Hempty; apply lookup_empty).
    discriminate H.
  - vm_compute. reflexivity.
  - vm_compute. reflexivity.
Defined.
